(** * rag-pipeline: the ingestion helpers, the context builder, the
      configuration holder and the query handler, embedded and verified.

    Every module below embeds one source file.  External services (the
    embedding endpoint, the object store, the file system, the LLM
    provider, the retrieval pipeline) are taken as arguments: the
    theorems hold for whatever they answer. *)

From Stdlib Require Import ZArith QArith Floats Ascii String List DecimalString.
From Stdlib Require Import Sorting.Sorted Sorting.Permutation.
From stdpp Require Import base option list strings gmap sorting.

#[local] Set Warnings "-inexact-float,-register-all".
Local Open Scope string_scope.
Local Open Scope Z_scope.
Local Open Scope list_scope.

(** ** The fragment of the Python runtime the sources rely on *)
Module Py.

(** Exceptions, by class.  [PineconeApiException] carries its [status]
    attribute; [OtherException] is any further subclass of [Exception]
    a callee may raise; [NonException] is a [BaseException] outside
    [Exception] (KeyboardInterrupt, SystemExit). *)
Inductive exn : Type :=
| ValueError (msg : string)
| FileNotFoundError (msg : string)
| ZeroDivisionError
| OverflowError
| UnboundLocalError (var : string)
| IndexError
| ColumnNotFoundError (col : string)
| PineconeApiException (status : option Z)
| OtherException (name : string)
| NonException (name : string).

(** [isinstance(e, Exception)] and [isinstance(e, PineconeApiException)]. *)
Definition is_Exception (e : exn) : bool :=
  match e with NonException _ => false | _ => true end.

Definition is_PineconeApiException (e : exn) : bool :=
  match e with PineconeApiException _ => true | _ => false end.

(** [e.status == code] on a [PineconeApiException]. *)
Definition status_eq (e : exn) (code : Z) : bool :=
  match e with
  | PineconeApiException (Some s) => s =? code
  | _ => false
  end.

(** A call either returns or raises. *)
Inductive result (A : Type) : Type :=
| Ok (a : A)
| Raise (e : exn).
Arguments Ok {A} a.
Arguments Raise {A} e.

Definition rbind {A B} (r : result A) (k : A -> result B) : result B :=
  match r with Ok a => k a | Raise e => Raise e end.

(** Values met in table cells, chunk metadata and request bodies. *)
Inductive pyval : Type :=
| VNone
| VBool (b : bool)
| VInt (z : Z)
| VFloat (f : float)
| VStr (s : string).

(** [v == s] for a string literal [s]: only an equal string is equal. *)
Definition eq_str (v : option pyval) (s : string) : bool :=
  match v with
  | Some (VStr t) => String.eqb t s
  | _ => false
  end.

(** The characters the sources spell with escapes. *)
Definition nl : string := String (ascii_of_nat 10) EmptyString.
Definition dquote : string := String (ascii_of_nat 34) EmptyString.

(** [str(n)] for an [int]. *)
Definition str_of_int (n : Z) : string := NilZero.string_of_int (Z.to_int n).

(** [s.startswith(p)], [s.endswith(p)]. *)
Definition startswith (s p : string) : bool := String.prefix p s.

Definition endswith (s p : string) : bool :=
  let n := String.length s in
  let m := String.length p in
  (m <=? n)%nat && String.eqb (String.substring (n - m) m s) p.

(** [sep.join(parts)]. *)
Fixpoint join (sep : string) (parts : list string) : string :=
  match parts with
  | [] => EmptyString
  | [p] => p
  | p :: rest => p +:+ sep +:+ join sep rest
  end.

(** [float(n)] for an [int] succeeds when [n], rounded to nearest even
    on 53 bits, is a double; beyond that it raises [OverflowError]. *)
Definition fits_double (n : Z) : bool := Z.abs n <? 2 ^ 1024 - 2 ^ 970.

Definition float_of_int (n : Z) : result float :=
  if fits_double n then Ok (SF2Prim (binary_normalize prec emax n 0 false))
  else Raise OverflowError.

(** Durations are exact rationals.  [x / n] for a float [x] and an
    [int] [n]: the operand is converted first, then a zero divisor
    raises; the quotient is kept exact where the code holds its nearest
    double. *)
Definition truediv_float_int (x : Q) (n : Z) : result Q :=
  if negb (fits_double n) then Raise OverflowError
  else if n =? 0 then Raise ZeroDivisionError
  else Ok (x / inject_Z n)%Q.

(** [range(0, stop, step)]: the start indices, in order. *)
Fixpoint range_from (start : nat) (count : nat) (step : nat) : list nat :=
  match count with
  | O => []
  | S c => start :: range_from (start + step) c step
  end.

Definition range0 (stop : nat) (step : Z) : result (list nat) :=
  if step =? 0 then Raise (ValueError "range() arg 3 must not be zero")
  else if step <? 0 then Ok []
  else
    let s := Z.to_nat step in
    Ok (range_from 0 ((stop + s - 1) / s)%nat s).

(** [l[i:j]] for [0 <= i <= j]. *)
Definition slice {A} (l : list A) (i j : nat) : list A := take (j - i) (drop i l).

(** [l[:k]] for any [int] [k]: a negative bound counts from the end. *)
Definition slice_to {A} (l : list A) (k : Z) : list A :=
  if 0 <=? k then take (Z.to_nat k) l
  else take (length l - Z.to_nat (- k)) l.

Lemma append_cons (x : ascii) (a b : string) : String x a +:+ b = String x (a +:+ b).
Proof. reflexivity. Qed.

Lemma append_assoc (a b c : string) : (a +:+ b) +:+ c = a +:+ (b +:+ c).
Proof.
  induction a as [|x a IH]; [reflexivity |].
  now rewrite !append_cons, IH.
Qed.

Lemma append_nil_r (a : string) : a +:+ EmptyString = a.
Proof.
  induction a as [|x a IH]; [reflexivity |].
  now rewrite append_cons, IH.
Qed.


End Py.
Import Py.

(** ** The fragment of polars the ingestion code relies on *)
Module Polars.

(** A table: column names with their data types, and rows of cells. *)
Record DataFrame : Type := {
  schema : list (string * string);
  rows : list (list pyval)
}.

Fixpoint column_index (cols : list (string * string)) (col : string) : option nat :=
  match cols with
  | [] => None
  | (c, _) :: rest =>
      if String.eqb c col then Some O else S <$> column_index rest col
  end.

(** [df[col].to_list()]. *)
Definition get_column (df : DataFrame) (col : string) : result (list pyval) :=
  match column_index (schema df) col with
  | None => Raise (ColumnNotFoundError col)
  | Some i => Ok (map (fun row => nth i row VNone) (rows df))
  end.

(** [pl.concat(dfs, how="vertical")]: frames of one schema are stacked,
    the rows following one another in the order of the list.  What
    polars makes of frames whose schemas differ (a cast to a common
    type for some, an error for others) is polars' own: [on_mismatch]
    stands for it. *)
Definition concat_vertical (on_mismatch : list DataFrame -> result DataFrame)
    (dfs : list DataFrame) : result DataFrame :=
  match dfs with
  | [] => Raise (ValueError "cannot concat empty list")
  | df :: rest =>
      if forallb (fun d => bool_decide (schema d = schema df)) rest
      then Ok {| schema := schema df; rows := concat (map rows dfs) |}
      else on_mismatch dfs
  end.

End Polars.
Import Polars.

(** ** rag_ingest/embed_sparse.py *)
Module EmbedSparse.

(** One item of the provider's answer, and the record the function
    builds from it. *)
Record Item : Type := { sparse_indices : list Z; sparse_values : list float }.
Record SparseEmbedding : Type := { indices : list Z; values : list float }.

Record EmbedParameters : Type := { input_type : string; truncate : string }.

(** The client handle [pc]: [pc.inference.embed(model=, inputs=,
    parameters=)].  The first argument is the number of calls made
    through the handle before this one, so that an answer may change
    from one attempt to the next. *)
Record Pinecone : Type := {
  inference_embed :
    nat -> string -> list pyval -> EmbedParameters -> result (list Item)
}.

(** What a run does to the outside, in order.  Console output is left
    out. *)
Inductive event : Type :=
| EmbedCall (model : string) (inputs : list pyval)
| Sleep (seconds : Q).

Record world : Type := { calls : nat; trace : list event }.

(** Computations that read and extend the world and may raise. *)
Definition M (A : Type) : Type := world -> result A * world.

#[global] Instance M_ret : MRet M := fun A a w => (Ok a, w).
#[global] Instance M_bind : MBind M := fun A B k m w =>
  match m w with
  | (Ok a, w') => k a w'
  | (Raise e, w') => (Raise e, w')
  end.

Definition raise {A} (e : exn) : M A := fun w => (Raise e, w).

Definition lift {A} (r : result A) : M A := fun w => (r, w).

(** [try: a = m ... except BaseException as e: handler]. *)
Definition try_except {A B} (m : M A) (on_return : A -> M B) (on_raise : exn -> M B) : M B :=
  fun w =>
    match m w with
    | (Ok a, w') => on_return a w'
    | (Raise e, w') => on_raise e w'
    end.

(** [time.sleep(seconds)]: a negative length raises. *)
Definition sleep (seconds : Q) : M unit := fun w =>
  if Qle_bool 0 seconds
  then (Ok tt, {| calls := calls w; trace := trace w ++ [Sleep seconds] |})
  else (Raise (ValueError "sleep length must be non-negative"), w).

Definition embed_call (pc : Pinecone) (embed_model : string) (chunk_batch : list pyval) : M (list Item) :=
  fun w =>
    (inference_embed pc (calls w) embed_model chunk_batch
       {| input_type := "passage"; truncate := "END" |},
     {| calls := S (calls w); trace := trace w ++ [EmbedCall embed_model chunk_batch] |}).

Definition max_retries : nat := 5.

(** Lines 40-59: [for attempt in range(max_retries)] with its [try],
    [break] and the two [except] clauses.  [result] is the variable of
    that name: it keeps its former binding when the loop ends without
    a [break]. *)
Fixpoint attempt_loop (pc : Pinecone) (embed_model : string) (chunk_batch : list pyval)
    (attempts : list nat) (retry_delay : Q) (result : option (list Item))
    : M (option (list Item)) :=
  match attempts with
  | [] => mret result
  | attempt :: rest =>
      try_except (embed_call pc embed_model chunk_batch)
        (fun r => mret (Some r))
        (fun e =>
           if is_PineconeApiException e then
             if status_eq e 429 && (attempt <? max_retries - 1)%nat then
               _ ← sleep retry_delay;
               attempt_loop pc embed_model chunk_batch rest (retry_delay * 2)%Q result
             else raise e
           else if is_Exception e then
             if (attempt <? max_retries - 1)%nat then
               _ ← sleep retry_delay;
               attempt_loop pc embed_model chunk_batch rest (retry_delay * 2)%Q result
             else raise e
           else raise e)
  end.

(** Lines 62-73: the record built from one item, the placeholder when
    the item has no index. *)
Definition to_sparse_embedding (item : Item) : SparseEmbedding :=
  let sparse_embedding :=
    {| indices := sparse_indices item; values := sparse_values item |} in
  if (length (indices sparse_embedding) =? 0)%nat
  then {| indices := [0]; values := [0.001%float] |}
  else sparse_embedding.

(** Lines 35-78: the body of the loop over batches, on the variables
    [sparse_embeddings] and [result] that live across iterations. *)
Definition batch_body (pc : Pinecone) (embed_model : string) (batch_size : nat)
    (delay_between_requests : Q) (all_chunks : list pyval)
    (vars : list SparseEmbedding * option (list Item)) (i : nat)
    : M (list SparseEmbedding * option (list Item)) :=
  let chunk_batch := slice all_chunks i (i + batch_size) in
  result ← attempt_loop pc embed_model chunk_batch (seq 0 max_retries) 1%Q vars.2;
  items ← match result with
          | Some r => mret r
          | None => raise (UnboundLocalError "result")
          end;
  let sparse_embeddings :=
    fold_left (fun acc item => acc ++ [to_sparse_embedding item]) items vars.1 in
  _ ← sleep delay_between_requests;
  mret (sparse_embeddings, result).

Fixpoint for_each {A S} (body : S -> A -> M S) (l : list A) (s : S) : M S :=
  match l with
  | [] => mret s
  | a :: rest => s' ← body s a; for_each body rest s'
  end.

Definition embed_sparse (pc : Pinecone) (df : DataFrame) (text_col : string)
    (embed_model : string) (batch_size : Z) (requests_per_minute : Z)
    : M (list SparseEmbedding) :=
  all_chunks ← lift (get_column df text_col);
  delay_between_requests ← lift (truediv_float_int 60 requests_per_minute);
  starts ← lift (range0 (length all_chunks) batch_size);
  vars ← for_each
           (batch_body pc embed_model (Z.to_nat batch_size) delay_between_requests all_chunks)
           starts ([], None);
  mret vars.1.

(** The defaults of the signature. *)
Definition default_text_col : string := "chunk_text".
Definition default_embed_model : string := "pinecone-sparse-english-v0".
Definition default_batch_size : Z := 96.
Definition default_requests_per_minute : Z := 5.

Definition start : world := {| calls := 0; trace := [] |}.

(** *** The retry loop *)

(** The failures the loop retries: a [PineconeApiException] only with
    status 429 (first clause), any other [Exception] always (second
    clause). *)
Definition retried (e : exn) : bool :=
  if is_PineconeApiException e then status_eq e 429 else is_Exception e.

Definition params : EmbedParameters := {| input_type := "passage"; truncate := "END" |}.

(** The world after one more call, and after a sleep. *)
Definition called (w : world) (embed_model : string) (chunk_batch : list pyval) : world :=
  {| calls := S (calls w); trace := trace w ++ [EmbedCall embed_model chunk_batch] |}.

Definition slept (w : world) (seconds : Q) : world :=
  {| calls := calls w; trace := trace w ++ [Sleep seconds] |}.

(** The trace of [k] failed attempts followed by one more attempt. *)
Definition backoff : list Q := [1; 2; 4; 8]%Q.

Definition attempts_trace (embed_model : string) (chunk_batch : list pyval) (k : nat) : list event :=
  EmbedCall embed_model chunk_batch
  :: flat_map (fun d => [Sleep d; EmbedCall embed_model chunk_batch]) (take k backoff).

(** A client that fails every call with the same error. *)
Definition failing_client (e : exn) : Pinecone :=
  {| inference_embed := fun _ _ _ _ => Raise e |}.

(** The claim that every kind of failure is retried alike, on a client
    that always fails. *)
Definition retried_identically : Prop :=
  forall (e : exn) (embed_model : string) (chunk_batch : list pyval),
    attempt_loop (failing_client e) embed_model chunk_batch (seq 0 max_retries) 1%Q None start
    = (Raise e, {| calls := 5; trace := attempts_trace embed_model chunk_batch 4 |}).

Local Ltac side := cbn; first [reflexivity | lia].

Section Retry.
Variable pc : Pinecone.
Variable embed_model : string.
Variable chunk_batch : list pyval.

Lemma attempt_returns attempt rest d r0 w r :
  inference_embed pc (calls w) embed_model chunk_batch params = Ok r ->
  attempt_loop pc embed_model chunk_batch (attempt :: rest) d r0 w
  = (Ok (Some r), called w embed_model chunk_batch).
Proof.
  intros H. cbn [attempt_loop]. unfold try_except, embed_call.
  fold params. rewrite H. reflexivity.
Qed.

Lemma attempt_retries attempt rest d r0 w e :
  inference_embed pc (calls w) embed_model chunk_batch params = Raise e ->
  retried e = true -> (attempt < 4)%nat -> Qle_bool 0 d = true ->
  attempt_loop pc embed_model chunk_batch (attempt :: rest) d r0 w
  = attempt_loop pc embed_model chunk_batch rest (d * 2)%Q r0
      (slept (called w embed_model chunk_batch) d).
Proof.
  intros H Hr Ha Hd. cbn [attempt_loop]. unfold try_except, embed_call.
  fold params. rewrite H.
  assert (Hlt : (attempt <? max_retries - 1)%nat = true)
    by (apply Nat.ltb_lt; unfold max_retries; lia).
  unfold retried in Hr. rewrite Hlt.
  destruct (is_PineconeApiException e).
  - rewrite Hr. cbn [andb]. unfold mbind, M_bind, sleep. cbn [calls trace].
    rewrite Hd. reflexivity.
  - rewrite Hr. unfold mbind, M_bind, sleep. cbn [calls trace].
    rewrite Hd. reflexivity.
Qed.

Lemma attempt_raises attempt rest d r0 w e :
  inference_embed pc (calls w) embed_model chunk_batch params = Raise e ->
  retried e = false \/ (4 <= attempt)%nat ->
  attempt_loop pc embed_model chunk_batch (attempt :: rest) d r0 w
  = (Raise e, called w embed_model chunk_batch).
Proof.
  intros H Hor. cbn [attempt_loop]. unfold try_except, embed_call.
  fold params. rewrite H. unfold retried in Hor.
  destruct Hor as [Hr | Ha].
  - destruct (is_PineconeApiException e).
    + rewrite Hr. reflexivity.
    + rewrite Hr. reflexivity.
  - assert (Hlt : (attempt <? max_retries - 1)%nat = false)
      by (apply Nat.ltb_ge; unfold max_retries; lia).
    rewrite Hlt, andb_false_r.
    destruct (is_PineconeApiException e), (is_Exception e); reflexivity.
Qed.

(** How a run of the loop ends, by the number [k] of retried failures
    before the deciding call. *)
Lemma attempt_loop_run (w : world) (r0 : option (list Item)) (k : nat)
    (o : result (list Item)) :
  (k <= 4)%nat ->
  (forall j, (j < k)%nat -> exists e,
      inference_embed pc (calls w + j) embed_model chunk_batch params = Raise e
      /\ retried e = true) ->
  inference_embed pc (calls w + k) embed_model chunk_batch params = o ->
  match o with Ok _ => True | Raise e => k = 4%nat \/ retried e = false end ->
  attempt_loop pc embed_model chunk_batch (seq 0 max_retries) 1%Q r0 w
  = (match o with Ok r => Ok (Some r) | Raise e => Raise e end,
     {| calls := calls w + k + 1;
        trace := trace w ++ attempts_trace embed_model chunk_batch k |}).
Proof.
  intros Hk Hfail Hlast Hend.
  assert (Hfin : forall attempt rest d w',
    calls w' = (calls w + k)%nat ->
    (attempt = k) ->
    attempt_loop pc embed_model chunk_batch (attempt :: rest) d r0 w'
    = (match o with Ok r => Ok (Some r) | Raise e => Raise e end,
       called w' embed_model chunk_batch)).
  { intros attempt rest d w' Hc ->. rewrite <- Hc in Hlast. destruct o as [r | e].
    - now apply attempt_returns.
    - apply attempt_raises; [done |]. destruct Hend as [-> | Hn]; [right; lia | now left]. }
  assert (Hstep : forall j attempt rest d w',
    (j < k)%nat -> calls w' = (calls w + j)%nat -> attempt = j -> Qle_bool 0 d = true ->
    attempt_loop pc embed_model chunk_batch (attempt :: rest) d r0 w'
    = attempt_loop pc embed_model chunk_batch rest (d * 2)%Q r0
        (slept (called w' embed_model chunk_batch) d)).
  { intros j attempt rest d w' Hj Hc -> Hd. destruct (Hfail j Hj) as (e & He & Hr).
    rewrite <- Hc in He. apply (attempt_retries _ _ _ _ _ e); [done | done | lia | done]. }
  unfold max_retries. cbn [seq].
  destruct w as [c t]. cbn [calls trace] in *.
  destruct k as [|[|[|[|[|k]]]]]; [| | | | | lia].
  - rewrite Hfin by side.
    unfold called, attempts_trace. cbn. do 2 f_equal. f_equal. lia.
  - rewrite (Hstep 0%nat) by side.
    rewrite Hfin by side.
    unfold called, slept, attempts_trace. cbn. rewrite <- !app_assoc. cbn.
    do 2 f_equal. f_equal. lia.
  - rewrite (Hstep 0%nat) by side.
    rewrite (Hstep 1%nat) by side.
    rewrite Hfin by side.
    unfold called, slept, attempts_trace. cbn. rewrite <- !app_assoc. cbn.
    do 2 f_equal. f_equal. lia.
  - rewrite (Hstep 0%nat) by side.
    rewrite (Hstep 1%nat) by side.
    rewrite (Hstep 2%nat) by side.
    rewrite Hfin by side.
    unfold called, slept, attempts_trace. cbn. rewrite <- !app_assoc. cbn.
    do 2 f_equal. f_equal. lia.
  - rewrite (Hstep 0%nat) by side.
    rewrite (Hstep 1%nat) by side.
    rewrite (Hstep 2%nat) by side.
    rewrite (Hstep 3%nat) by side.
    rewrite Hfin by side.
    unfold called, slept, attempts_trace. cbn. rewrite <- !app_assoc. cbn.
    do 2 f_equal. f_equal. lia.
Qed.

End Retry.

(** A run makes at most five calls, whatever the client answers. *)
Lemma attempt_loop_calls_le pc embed_model chunk_batch attempts d r0 w :
  (calls (attempt_loop pc embed_model chunk_batch attempts d r0 w).2
   <= calls w + length attempts)%nat.
Proof.
  revert d w. induction attempts as [|attempt rest IH]; intros d w.
  - cbn. lia.
  - cbn [attempt_loop length]. unfold try_except, embed_call.
    destruct (inference_embed pc (calls w) embed_model chunk_batch _) as [r | e].
    + cbn. lia.
    + assert (Hs : forall w0,
        (calls ((_ ← sleep d;
                 attempt_loop pc embed_model chunk_batch rest (d * 2)%Q r0) w0).2
         <= calls w0 + length rest)%nat).
      { intros w0. unfold mbind, M_bind, sleep.
        destruct (Qle_bool 0 d).
        - etransitivity; [apply IH |]. cbn. lia.
        - cbn. lia. }
      repeat match goal with
             | |- context [if ?b then _ else _] => destruct b
             end;
        try (etransitivity; [apply Hs |]; cbn; lia); cbn; lia.
Qed.

(** C1 (as amended): a failure is retried when it is a
    PineconeApiException with status 429 or an Exception of another
    class.  After [k <= 4] such failures the loop has slept 1, 2, 4, 8
    seconds between the attempts (the first [k] of them) and made
    [k + 1] calls; it returns the first answer, re-raises the fifth
    failure without a sixth call, and re-raises at once, without
    sleeping, a failure that is not retried (a PineconeApiException
    with another status among them). *)
Theorem retry_policy (pc : Pinecone) (embed_model : string) (chunk_batch : list pyval)
    (w : world) (r0 : option (list Item)) (k : nat) (o : result (list Item)) :
  (k <= 4)%nat ->
  (forall j, (j < k)%nat -> exists e,
      inference_embed pc (calls w + j) embed_model chunk_batch params = Raise e
      /\ retried e = true) ->
  inference_embed pc (calls w + k) embed_model chunk_batch params = o ->
  match o with Ok _ => True | Raise e => k = 4%nat \/ retried e = false end ->
  attempt_loop pc embed_model chunk_batch (seq 0 max_retries) 1%Q r0 w
  = (match o with Ok r => Ok (Some r) | Raise e => Raise e end,
     {| calls := calls w + k + 1;
        trace := trace w ++ attempts_trace embed_model chunk_batch k |})
  /\ (forall e, retried e = true <->
        e = PineconeApiException (Some 429)
        \/ (is_PineconeApiException e = false /\ is_Exception e = true)).
Proof.
  intros Hk Hfail Hlast Hend. split.
  - now apply attempt_loop_run.
  - intros e. unfold retried. destruct e as [| | | | | | |[s|]| |]; cbn;
      try (split; [intros _; right; split; reflexivity | reflexivity]).
    + rewrite Z.eqb_eq. split.
      * intros ->. now left.
      * intros [[= ->] | [[=] _]]. reflexivity.
    + split; [discriminate | intros [[=] | [[=] _]]].
    + split; [discriminate | intros [[=] | [_ [=]]]].
Qed.

(** A client whose first call is rate-limited, whose second call fails
    with another exception, and which answers from the third call on. *)
Definition recovering_client : Pinecone :=
  {| inference_embed := fun n _ inputs _ =>
       match n with
       | O => Raise (PineconeApiException (Some 429))
       | S O => Raise (OtherException "ConnectionError")
       | _ => Ok (map (fun _ => {| sparse_indices := [3]; sparse_values := [0.5%float] |}) inputs)
       end |}.

Lemma retry_policy_witness :
  attempt_loop recovering_client "m" [VStr "a"] (seq 0 max_retries) 1%Q None start
  = (Ok (Some [{| sparse_indices := [3]; sparse_values := [0.5%float] |}]),
     {| calls := 3;
        trace := [EmbedCall "m" [VStr "a"]; Sleep 1; EmbedCall "m" [VStr "a"];
                  Sleep 2; EmbedCall "m" [VStr "a"]] |})
  /\ (forall e, retried e = true <->
        e = PineconeApiException (Some 429)
        \/ (is_PineconeApiException e = false /\ is_Exception e = true)).
Proof.
  apply (retry_policy recovering_client "m" [VStr "a"] start None 2
           (Ok [{| sparse_indices := [3]; sparse_values := [0.5%float] |}])).
  - lia.
  - intros [|[|j]] Hj.
    + exists (PineconeApiException (Some 429)). split; reflexivity.
    + exists (OtherException "ConnectionError"). split; reflexivity.
    + lia.
  - reflexivity.
  - exact I.
Defined.

(** C1 (as stated) fails: a PineconeApiException whose status is not
    429 is raised at the first attempt, with no sleep and no retry. *)
Lemma retry_differs_by_kind :
  attempt_loop (failing_client (PineconeApiException (Some 500))) "m" [VStr "a"]
    (seq 0 max_retries) 1%Q None start
  = (Raise (PineconeApiException (Some 500)),
     {| calls := 1; trace := [EmbedCall "m" [VStr "a"]] |})
  /\ ~ retried_identically.
Proof.
  split; [reflexivity |].
  intros H. specialize (H (PineconeApiException (Some 500)) "m" [VStr "a"]).
  vm_compute in H. discriminate H.
Qed.

(** *** The whole run *)

(** The provider answers every batch within the retries: from any call
    on, at most four retried failures, then one item per input text,
    in order. *)
Definition answers_within_retries (pc : Pinecone) (embed_model : string)
    (f : pyval -> Item) : Prop :=
  forall (n : nat) (inputs : list pyval), exists k,
    (k <= 4)%nat
    /\ (forall j, (j < k)%nat -> exists e,
          inference_embed pc (n + j) embed_model inputs params = Raise e
          /\ retried e = true)
    /\ inference_embed pc (n + k) embed_model inputs params = Ok (map f inputs).

Definition placeholder : SparseEmbedding := {| indices := [0]; values := [0.001%float] |}.

Lemma fold_left_snoc {A B} (g : A -> B) (items : list A) (acc : list B) :
  fold_left (fun acc item => acc ++ [g item]) items acc = acc ++ map g items.
Proof.
  revert acc. induction items as [|a items IH]; intros acc; cbn.
  - now rewrite app_nil_r.
  - rewrite IH, <- app_assoc. reflexivity.
Qed.

Lemma to_sparse_embedding_eq (item : Item) :
  to_sparse_embedding item
  = match sparse_indices item with
    | [] => placeholder
    | _ => {| indices := sparse_indices item; values := sparse_values item |}
    end.
Proof. unfold to_sparse_embedding. cbn. now destruct (sparse_indices item). Qed.

Lemma to_sparse_embedding_nonempty (item : Item) :
  indices (to_sparse_embedding item) <> [].
Proof.
  rewrite to_sparse_embedding_eq.
  destruct (sparse_indices item); cbn; discriminate.
Qed.

Section Run.
Variable pc : Pinecone.
Variable embed_model : string.
Variable f : pyval -> Item.
Hypothesis Hpc : answers_within_retries pc embed_model f.
Variable batch_size : nat.
Variable delay : Q.
Hypothesis Hdelay : Qle_bool 0 delay = true.
Variable all_chunks : list pyval.

Let g (t : pyval) : SparseEmbedding := to_sparse_embedding (f t).

Lemma batch_body_run acc r0 i w :
  exists r w',
    batch_body pc embed_model batch_size delay all_chunks (acc, r0) i w
    = (Ok (acc ++ map g (slice all_chunks i (i + batch_size)), r), w').
Proof.
  unfold batch_body. cbn [fst snd].
  set (chunk_batch := slice all_chunks i (i + batch_size)).
  destruct (Hpc (calls w) chunk_batch) as (k & Hk & Hfail & Hok).
  pose proof (attempt_loop_run pc embed_model chunk_batch w r0 k _ Hk Hfail Hok I) as Hrun.
  unfold mbind at 1. unfold M_bind at 1. rewrite Hrun.
  unfold mbind, M_bind, mret, M_ret, sleep. rewrite Hdelay.
  eexists _, _. rewrite fold_left_snoc, map_map. reflexivity.
Qed.

Lemma for_each_run count : forall i acc r0 w,
  (0 < batch_size)%nat ->
  (length all_chunks <= i + count * batch_size)%nat ->
  exists r w',
    for_each (batch_body pc embed_model batch_size delay all_chunks)
      (range_from i count batch_size) (acc, r0) w
    = (Ok (acc ++ map g (drop i all_chunks), r), w').
Proof.
  induction count as [|count IH]; intros i acc r0 w Hpos Hlen.
  - cbn. exists r0, w. rewrite drop_ge by lia. cbn. now rewrite app_nil_r.
  - cbn [range_from for_each].
    destruct (batch_body_run acc r0 i w) as (r & w1 & Hb).
    unfold mbind, M_bind. rewrite Hb.
    destruct (IH (i + batch_size)%nat
                (acc ++ map g (slice all_chunks i (i + batch_size))) r w1 Hpos)
      as (r' & w' & Hf); [lia |].
    exists r', w'. unfold mbind, M_bind in Hf. rewrite Hf.
    rewrite <- app_assoc, <- map_app. unfold slice.
    replace (i + batch_size - i)%nat with batch_size by lia.
    rewrite <- drop_drop, take_drop. reflexivity.
Qed.

End Run.

(** Whatever the provider answers, a batch only appends records built
    by [to_sparse_embedding]. *)
Lemma batch_body_appends pc embed_model batch_size delay all_chunks vars i w vars' w' :
  batch_body pc embed_model batch_size delay all_chunks vars i w = (Ok vars', w') ->
  exists items, vars'.1 = vars.1 ++ map to_sparse_embedding items.
Proof.
  unfold batch_body, mbind, M_bind, mret, M_ret, raise.
  destruct (attempt_loop _ _ _ _ _ _ w) as [[[items |] | e] w1]; try discriminate.
  unfold sleep. destruct (Qle_bool 0 delay); [| discriminate].
  intros [= <- _]. exists items. cbn [fst]. apply fold_left_snoc.
Qed.

Lemma for_each_nonempty pc embed_model batch_size delay all_chunks starts :
  forall vars w vars' w',
  for_each (batch_body pc embed_model batch_size delay all_chunks) starts vars w
  = (Ok vars', w') ->
  Forall (fun r => indices r <> []) vars.1 ->
  Forall (fun r => indices r <> []) vars'.1.
Proof.
  induction starts as [|i starts IH]; intros vars w vars' w'; cbn [for_each].
  - now intros [= <- _].
  - unfold mbind, M_bind.
    destruct (batch_body _ _ _ _ _ vars i w) as [[vars1 | e] w1] eqn:Eb; [| discriminate].
    intros Hrest Hacc. apply (IH _ _ _ _ Hrest).
    destruct (batch_body_appends _ _ _ _ _ _ _ _ _ _ Eb) as [items ->].
    apply Forall_app. split; [exact Hacc |].
    clear. induction items as [|item items IHi]; cbn; constructor;
      [apply to_sparse_embedding_nonempty | exact IHi].
Qed.

Lemma embed_sparse_nonempty pc df text_col embed_model batch_size requests_per_minute
    w out w' :
  embed_sparse pc df text_col embed_model batch_size requests_per_minute w = (Ok out, w') ->
  Forall (fun r => indices r <> []) out.
Proof.
  unfold embed_sparse, lift, mbind, M_bind, mret, M_ret.
  destruct (get_column df text_col) as [all_chunks | e]; [| discriminate].
  destruct (truediv_float_int 60 requests_per_minute) as [d | e]; [| discriminate].
  destruct (range0 (length all_chunks) batch_size) as [starts | e]; [| discriminate].
  destruct (for_each _ starts ([], None) w) as [[vars | e] w1] eqn:Ef; [| discriminate].
  intros [= <- _]. apply (for_each_nonempty _ _ _ _ _ _ _ _ _ _ Ef). constructor.
Qed.

Lemma range0_covers (stop : nat) (step : Z) :
  0 < step ->
  exists count,
    range0 stop step = Ok (range_from 0 count (Z.to_nat step))
    /\ (stop <= 0 + count * Z.to_nat step)%nat.
Proof.
  intros Hs. unfold range0.
  destruct (Z.eqb_spec step 0) as [-> | _]; [lia |].
  destruct (Z.ltb_spec step 0) as [? | _]; [lia |].
  eexists. split; [reflexivity |].
  set (s := Z.to_nat step). assert (Hpos : (0 < s)%nat) by (subst s; lia).
  pose proof (Nat.div_mod_eq (stop + s - 1) s) as Hd.
  pose proof (Nat.mod_upper_bound (stop + s - 1) s ltac:(lia)) as Hm.
  nia.
Qed.

Lemma pacing_delay_ok (requests_per_minute : Z) :
  0 < requests_per_minute < 2 ^ 1024 - 2 ^ 970 ->
  exists d, truediv_float_int 60 requests_per_minute = Ok d /\ Qle_bool 0 d = true.
Proof.
  intros [Hlo Hhi]. unfold truediv_float_int, fits_double.
  rewrite Z.abs_eq by lia.
  destruct (Z.ltb_spec requests_per_minute (2 ^ 1024 - 2 ^ 970)) as [_ | ?]; [| lia].
  cbn [negb]. destruct (Z.eqb_spec requests_per_minute 0) as [? | _]; [lia |].
  eexists. split; [reflexivity |].
  destruct requests_per_minute as [|p|p]; try lia. reflexivity.
Qed.

(** C2: when the table has the text column, the batch size and the
    request rate are positive and the provider answers every batch
    within the retries with one item per text, [embed_sparse] returns
    one record per text, in the order of the texts: the placeholder
    where the provider's item has no index, the item's own indices and
    values otherwise.  Whatever the provider answers, no record of a
    returned list has empty indices. *)
Theorem embed_sparse_mirrors_input (pc : Pinecone) (df : DataFrame) (text_col : string)
    (embed_model : string) (batch_size requests_per_minute : Z) (w : world)
    (texts : list pyval) (f : pyval -> Item) :
  get_column df text_col = Ok texts ->
  0 < batch_size ->
  0 < requests_per_minute < 2 ^ 1024 - 2 ^ 970 ->
  answers_within_retries pc embed_model f ->
  (exists out w',
     embed_sparse pc df text_col embed_model batch_size requests_per_minute w = (Ok out, w')
     /\ length out = length texts
     /\ (forall (i : nat) (t : pyval), texts !! i = Some t ->
           out !! i = Some (match sparse_indices (f t) with
                            | [] => {| indices := [0]; values := [0.001%float] |}
                            | _ => {| indices := sparse_indices (f t);
                                      values := sparse_values (f t) |}
                            end)))
  /\ (forall pc' w0 out w',
        embed_sparse pc' df text_col embed_model batch_size requests_per_minute w0
        = (Ok out, w') ->
        Forall (fun r => indices r <> []) out).
Proof.
  intros Hcol Hbs Hrpm Hpc. split; [| intros pc' w0 out w'; apply embed_sparse_nonempty].
  destruct (pacing_delay_ok _ Hrpm) as (d & Hd & Hd0).
  destruct (range0_covers (length texts) batch_size Hbs) as (count & Hrange & Hcount).
  destruct (for_each_run pc embed_model f Hpc (Z.to_nat batch_size) d Hd0 texts
              count 0%nat [] None w ltac:(lia) Hcount) as (r & w' & Hrun).
  exists (map (fun t => to_sparse_embedding (f t)) texts), w'.
  split; [| split].
  - unfold embed_sparse, lift.
    unfold mbind at 1. unfold M_bind at 1. rewrite Hcol.
    unfold mbind at 1. unfold M_bind at 1. rewrite Hd.
    unfold mbind at 1. unfold M_bind at 1. rewrite Hrange.
    unfold mbind at 1. unfold M_bind at 1. rewrite Hrun. reflexivity.
  - apply length_map.
  - intros i t Ht. rewrite list_lookup_fmap, Ht. cbn.
    rewrite to_sparse_embedding_eq. reflexivity.
Qed.

(** A client that is rate-limited on every even call and answers the
    odd ones: no index for the empty text, one index otherwise. *)
Definition item_of (t : pyval) : Item :=
  match t with
  | VStr EmptyString => {| sparse_indices := []; sparse_values := [] |}
  | _ => {| sparse_indices := [3]; sparse_values := [0.5%float] |}
  end.

Definition flaky_client : Pinecone :=
  {| inference_embed := fun n _ inputs _ =>
       if Nat.even n then Raise (PineconeApiException (Some 429))
       else Ok (map item_of inputs) |}.

Definition three_rows : DataFrame :=
  {| schema := [("id", "Int64"); ("chunk_text", "String")];
     rows := [[VInt 1; VStr "a"]; [VInt 2; VStr EmptyString]; [VInt 3; VStr "c"]] |}.

Lemma flaky_client_answers : answers_within_retries flaky_client "m" item_of.
Proof.
  intros n inputs. cbn. destruct (Nat.even n) eqn:E.
  - exists 1%nat. split; [lia |]. split.
    + intros j Hj. assert (j = 0%nat) as -> by lia.
      rewrite Nat.add_0_r, E. eexists. split; reflexivity.
    + rewrite Nat.add_1_r, Nat.even_succ, <- Nat.negb_even, E. reflexivity.
  - exists 0%nat. split; [lia |]. split.
    + intros j Hj. lia.
    + rewrite Nat.add_0_r, E. reflexivity.
Defined.

Lemma embed_sparse_mirrors_input_witness :
  (exists out w',
     embed_sparse flaky_client three_rows "chunk_text" "m" 2 5 start = (Ok out, w')
     /\ length out = 3%nat
     /\ (forall (i : nat) (t : pyval),
           [VStr "a"; VStr EmptyString; VStr "c"] !! i = Some t ->
           out !! i = Some (match sparse_indices (item_of t) with
                            | [] => {| indices := [0]; values := [0.001%float] |}
                            | _ => {| indices := sparse_indices (item_of t);
                                      values := sparse_values (item_of t) |}
                            end)))
  /\ (forall pc' w0 out w',
        embed_sparse pc' three_rows "chunk_text" "m" 2 5 w0 = (Ok out, w') ->
        Forall (fun r => indices r <> []) out).
Proof.
  apply (embed_sparse_mirrors_input flaky_client three_rows "chunk_text" "m" 2 5 start
           [VStr "a"; VStr EmptyString; VStr "c"] item_of).
  - reflexivity.
  - lia.
  - split; reflexivity.
  - exact flaky_client_answers.
Defined.

(** The run of the sample: the second text gets the placeholder. *)
Example three_rows_run :
  (embed_sparse flaky_client three_rows "chunk_text" "m" 2 5 start).1
  = Ok [{| indices := [3]; values := [0.5%float] |};
        {| indices := [0]; values := [0.001%float] |};
        {| indices := [3]; values := [0.5%float] |}].
Proof. vm_compute. reflexivity. Qed.

End EmbedSparse.

(** ** rag_ingest/s3_loader.py *)
Module S3Loader.

(** Truth value of an optional string argument: [None] and the empty
    string are false. *)
Definition truthy (o : option string) : bool :=
  match o with
  | Some s => negb (String.eqb s EmptyString)
  | None => false
  end.

(** How an f-string prints an optional string. *)
Definition fmt (o : option string) : string :=
  match o with Some s => s | None => "None" end.

(** [os.path.join(a, b)] (POSIX). *)
Definition path_join (a b : string) : string :=
  if startswith b "/" then b
  else if String.eqb a EmptyString || endswith a "/" then a +:+ b
  else a +:+ "/" +:+ b.

(** What [pl.read_parquet] is given: a path, or the bytes of an object. *)
Inductive source : Type :=
| Path (p : string)
| Bytes (body : string).

(** [list_objects_v2]: its keyword arguments and the fields of its
    answer the loader reads ([Contents] holds the keys). *)
Record ListParams : Type := {
  Bucket : string;
  Prefix : option string;
  ContinuationToken : option string
}.

Record ListResponse : Type := {
  Contents : option (list string);
  IsTruncated : option bool;
  NextContinuationToken : option string
}.

Record S3Client : Type := {
  list_objects_v2 : ListParams -> result ListResponse;
  get_object : string -> string -> result string
}.

(** [bucket.startswith(("/", ".", "~"))]. *)
Definition is_local (bucket : string) : bool :=
  startswith bucket "/" || startswith bucket "." || startswith bucket "~".

(** [sorted(paths)]. *)
Definition sorted (paths : list string) : list string := merge_sort String.le paths.

(** [[f(x) for x in l]]: the first failure ends the comprehension. *)
Fixpoint map_result {A B} (f : A -> result B) (l : list A) : result (list B) :=
  match l with
  | [] => Ok []
  | a :: rest =>
      rbind (f a) (fun b => rbind (map_result f rest) (fun bs => Ok (b :: bs)))
  end.

Section Loader.
(** [os.path.expanduser], [glob.glob(pattern, recursive=True)],
    [pl.read_parquet], [boto3.client('s3', region_name=region)], and
    polars' vertical concatenation of frames whose schemas differ. *)
Variable expanduser : string -> string.
Variable glob_recursive : string -> list string.
Variable read_parquet : source -> result DataFrame.
Variable boto3_client : string -> S3Client.
Variable stack_mismatched : list DataFrame -> result DataFrame.

Definition list_params (bucket : string) (prefix continuation_token : option string)
    : ListParams :=
  {| Bucket := bucket;
     Prefix := if truthy prefix then prefix else None;
     ContinuationToken := if truthy continuation_token then continuation_token else None |}.

(** Lines 56-77: the [while True] loop.  [fuel] bounds the number of
    iterations; [None] is a loop that has not ended within it. *)
Fixpoint list_loop (s3_client : S3Client) (bucket : string) (prefix : option string)
    (fuel : nat) (continuation_token : option string) (parquet_files : list string)
    : option (result (list string)) :=
  match fuel with
  | O => None
  | S fuel' =>
      match list_objects_v2 s3_client (list_params bucket prefix continuation_token) with
      | Raise e => Some (Raise e)
      | Ok response =>
          match Contents response with
          | None =>
              Some (Raise (FileNotFoundError
                ("No parquet files found in S3://" +:+ bucket +:+ "/" +:+ fmt prefix)))
          | Some contents =>
              let parquet_files :=
                fold_left
                  (fun acc key => if endswith key ".parquet" then acc ++ [key] else acc)
                  contents parquet_files in
              if default false (IsTruncated response)
              then list_loop s3_client bucket prefix fuel'
                     (NextContinuationToken response) parquet_files
              else Some (Ok parquet_files)
          end
      end
  end.

Definition fetch (s3_client : S3Client) (bucket key : string) : result DataFrame :=
  rbind (get_object s3_client bucket key) (fun body => read_parquet (Bytes body)).

Definition load_parquet_from_s3 (fuel : nat) (bucket : string) (prefix : option string)
    (single_key : option string) (region : string) : option (result DataFrame) :=
  if is_local bucket then
    let base := expanduser bucket in
    let base := if truthy prefix then path_join base (fmt prefix) else base in
    if truthy single_key then
      let path := path_join base (fmt single_key) in
      Some (read_parquet (Path path))
    else
      let parquet_files := glob_recursive (path_join (path_join base "**") "*.parquet") in
      match parquet_files with
      | [] => Some (Raise (FileNotFoundError ("No parquet files found in " +:+ base)))
      | _ =>
          Some (rbind (map_result (fun f => read_parquet (Path f)) (sorted parquet_files))
                  (concat_vertical stack_mismatched))
      end
  else
    let s3_client := boto3_client region in
    if truthy single_key then
      Some (fetch s3_client bucket (fmt single_key))
    else
      match list_loop s3_client bucket prefix fuel None [] with
      | None => None
      | Some (Raise e) => Some (Raise e)
      | Some (Ok parquet_files) =>
          match parquet_files with
          | [] =>
              Some (Raise (FileNotFoundError
                ("No parquet files found in S3://" +:+ bucket +:+ "/" +:+ fmt prefix)))
          | _ =>
              Some (rbind (map_result (fetch s3_client bucket) parquet_files)
                      (concat_vertical stack_mismatched))
          end
      end.

End Loader.

(** *** Local or remote *)

Lemma startswith_char (s : string) (c : ascii) :
  startswith s (String c EmptyString) = true <-> exists rest, s = String c rest.
Proof.
  unfold startswith. destruct s as [|c' s]; cbn.
  - split; [discriminate | intros [rest [=]]].
  - destruct (ascii_dec c c') as [-> | Hne].
    + split; [intros _; now exists s | intros _; now destruct s].
    + split; [discriminate | intros [rest [= H _]]; congruence].
Qed.

Lemma is_local_spec (bucket : string) :
  is_local bucket = true <->
  exists rest, bucket = "/" +:+ rest \/ bucket = "." +:+ rest \/ bucket = "~" +:+ rest.
Proof.
  unfold is_local. rewrite !orb_true_iff, !startswith_char. cbn. split.
  - intros [[[rest H] | [rest H]] | [rest H]]; exists rest; tauto.
  - intros [rest [H | [H | H]]]; [left; left | left; right | right]; now exists rest.
Qed.

(** *** The remote listing *)

(** The keys of a page that end in the extension, in listing order. *)
Definition parquet_keys (keys : list string) : list string :=
  List.filter (fun key => endswith key ".parquet") keys.

Lemma fold_left_parquet_keys (contents acc : list string) :
  fold_left (fun acc key => if endswith key ".parquet" then acc ++ [key] else acc)
    contents acc
  = acc ++ parquet_keys contents.
Proof.
  revert acc. induction contents as [|key contents IH]; intros acc; cbn.
  - now rewrite app_nil_r.
  - rewrite IH. destruct (endswith key ".parquet"); [| reflexivity].
    now rewrite <- app_assoc.
Qed.

Lemma parquet_keys_app (l1 l2 : list string) :
  parquet_keys (l1 ++ l2) = parquet_keys l1 ++ parquet_keys l2.
Proof. apply List.filter_app. Qed.

Definition not_found_remote (bucket : string) (prefix : option string) : exn :=
  FileNotFoundError ("No parquet files found in S3://" +:+ bucket +:+ "/" +:+ fmt prefix).

Section Listing.
Variable s3_client : S3Client.
Variable bucket : string.
Variable prefix : option string.

(** [walk token pages ended]: from [token] on, the store answers the
    pages [pages] one after the other, each truncated page handing over
    the token of the next; the listing ends with a page that is not
    truncated ([ended = true]) or with an answer that has no [Contents]
    ([ended = false]). *)
Inductive walk : option string -> list (list string) -> bool -> Prop :=
| walk_last token response contents :
    list_objects_v2 s3_client (list_params bucket prefix token) = Ok response ->
    Contents response = Some contents ->
    default false (IsTruncated response) = false ->
    walk token [contents] true
| walk_no_contents token response :
    list_objects_v2 s3_client (list_params bucket prefix token) = Ok response ->
    Contents response = None ->
    walk token [] false
| walk_next token response contents pages ended :
    list_objects_v2 s3_client (list_params bucket prefix token) = Ok response ->
    Contents response = Some contents ->
    default false (IsTruncated response) = true ->
    walk (NextContinuationToken response) pages ended ->
    walk token (contents :: pages) ended.

(** Calls to [list_objects_v2] the loop makes along a walk. *)
Definition list_calls (pages : list (list string)) (ended : bool) : nat :=
  if ended then length pages else S (length pages).

Lemma list_loop_walk token pages ended :
  walk token pages ended ->
  forall fuel acc, (list_calls pages ended <= fuel)%nat ->
  list_loop s3_client bucket prefix fuel token acc
  = Some (if ended then Ok (acc ++ parquet_keys (concat pages))
          else Raise (not_found_remote bucket prefix)).
Proof.
  induction 1 as [token response contents Hl Hc Ht
                 | token response Hl Hc
                 | token response contents pages ended Hl Hc Ht Hw IH];
    intros fuel acc Hfuel;
    (destruct fuel as [|fuel];
     [unfold list_calls in Hfuel; try destruct ended; cbn in Hfuel; lia |]);
    cbn [list_loop]; rewrite Hl, Hc.
  - rewrite Ht, fold_left_parquet_keys. cbn. now rewrite app_nil_r.
  - reflexivity.
  - rewrite Ht, fold_left_parquet_keys, IH.
    + cbn [concat]. rewrite parquet_keys_app.
      destruct ended; [now rewrite app_assoc | reflexivity].
    + unfold list_calls in *. destruct ended; cbn in *; lia.
Qed.

End Listing.

(** *** Reading and stacking *)

Section LoaderFacts.
Variable expanduser : string -> string.
Variable glob_recursive : string -> list string.
Variable read_parquet : source -> result DataFrame.
Variable boto3_client : string -> S3Client.
Variable stack_mismatched : list DataFrame -> result DataFrame.

Local Abbreviation load :=
  (load_parquet_from_s3 expanduser glob_recursive read_parquet boto3_client
     stack_mismatched).
Local Abbreviation concat_vertical := (Polars.concat_vertical stack_mismatched).

(** The directory of a local location: location and prefix joined. *)
Definition local_base (bucket : string) (prefix : option string) : string :=
  if truthy prefix then path_join (expanduser bucket) (fmt prefix) else expanduser bucket.

(** The pattern handed to the recursive glob. *)
Definition local_pattern (bucket : string) (prefix : option string) : string :=
  path_join (path_join (local_base bucket prefix) "**") "*.parquet".

Lemma load_local_mode_b fuel bucket prefix region :
  is_local bucket = true ->
  load fuel bucket prefix None region
  = match glob_recursive (local_pattern bucket prefix) with
    | [] => Some (Raise (FileNotFoundError
                    ("No parquet files found in " +:+ local_base bucket prefix)))
    | files =>
        Some (rbind (map_result (fun f => read_parquet (Path f)) (sorted files))
                concat_vertical)
    end.
Proof.
  intros Hl. unfold load_parquet_from_s3, local_pattern, local_base.
  rewrite Hl. cbn [truthy]. cbv zeta.
  destruct (glob_recursive _); reflexivity.
Qed.

Lemma load_remote_mode_b fuel bucket prefix region pages ended :
  is_local bucket = false ->
  walk (boto3_client region) bucket prefix None pages ended ->
  (list_calls pages ended <= fuel)%nat ->
  load fuel bucket prefix None region
  = if ended then
      match parquet_keys (concat pages) with
      | [] => Some (Raise (not_found_remote bucket prefix))
      | keys =>
          Some (rbind (map_result (fetch read_parquet (boto3_client region) bucket) keys)
                  concat_vertical)
      end
    else Some (Raise (not_found_remote bucket prefix)).
Proof.
  intros Hl Hw Hfuel. unfold load_parquet_from_s3.
  rewrite Hl. cbn [truthy].
  rewrite (list_loop_walk _ _ _ _ _ _ Hw fuel [] Hfuel).
  destruct ended; [| reflexivity]. cbn [app].
  destruct (parquet_keys (concat pages)); reflexivity.
Qed.

Lemma concat_vertical_same_schema (df : DataFrame) (rest : list DataFrame) :
  Forall (fun d => schema d = schema df) rest ->
  concat_vertical (df :: rest)
  = Ok {| schema := schema df; rows := concat (map rows (df :: rest)) |}.
Proof.
  intros Hs. unfold Polars.concat_vertical.
  replace (forallb _ rest) with true; [reflexivity |].
  symmetry. apply forallb_forall. intros d Hd.
  apply bool_decide_eq_true. revert d Hd. now apply List.Forall_forall.
Qed.

(** C6: in Mode B the loader raises FileNotFoundError when no file
    ending in the extension is discovered: locally when the recursive
    glob under location+prefix finds none; remotely when the listing,
    walked to its end, holds no such key. *)
Theorem mode_b_not_found (fuel : nat) (prefix : option string) (region : string) :
  (forall bucket,
     is_local bucket = true ->
     glob_recursive (local_pattern bucket prefix) = [] ->
     load fuel bucket prefix None region
     = Some (Raise (FileNotFoundError
                      ("No parquet files found in " +:+ local_base bucket prefix))))
  /\ (forall bucket pages ended,
        is_local bucket = false ->
        walk (boto3_client region) bucket prefix None pages ended ->
        parquet_keys (concat pages) = [] ->
        (list_calls pages ended <= fuel)%nat ->
        load fuel bucket prefix None region
        = Some (Raise (FileNotFoundError
                         ("No parquet files found in S3://" +:+ bucket +:+ "/"
                          +:+ fmt prefix)))).
Proof.
  split.
  - intros bucket Hl Hg. rewrite load_local_mode_b by exact Hl. now rewrite Hg.
  - intros bucket pages ended Hl Hw Hk Hfuel.
    rewrite (load_remote_mode_b _ _ _ _ _ _ Hl Hw Hfuel), Hk.
    destruct ended; reflexivity.
Qed.

(** X24: a location is local exactly when it begins with "/", "." or
    "~".  In local Mode B the loader reads the paths the recursive glob
    of location+prefix returns, in sorted-by-path order, and stacks
    their rows in that order.  In remote Mode B it follows the
    continuation tokens to the last page, keeps the keys ending in the
    extension in listing order, gets each object of the bucket and
    reads its body, in that order, and stacks the rows. *)
Theorem mode_b_order (fuel : nat) (prefix : option string) (region : string) :
  (forall bucket,
     is_local bucket = true <->
     exists rest,
       bucket = "/" +:+ rest \/ bucket = "." +:+ rest \/ bucket = "~" +:+ rest)
  /\ (forall bucket files,
        is_local bucket = true ->
        glob_recursive (local_pattern bucket prefix) = files ->
        files <> [] ->
        load fuel bucket prefix None region
        = Some (rbind (map_result (fun f => read_parquet (Path f)) (sorted files))
                  concat_vertical)
        /\ Permutation (sorted files) files
        /\ StronglySorted String.le (sorted files)
        /\ (forall df rest,
              map_result (fun f => read_parquet (Path f)) (sorted files) = Ok (df :: rest) ->
              Forall (fun d => schema d = schema df) rest ->
              load fuel bucket prefix None region
              = Some (Ok {| schema := schema df;
                            rows := concat (map rows (df :: rest)) |})))
  /\ (forall bucket pages,
        is_local bucket = false ->
        walk (boto3_client region) bucket prefix None pages true ->
        List.filter (fun key => endswith key ".parquet") (concat pages) <> [] ->
        (length pages <= fuel)%nat ->
        load fuel bucket prefix None region
        = Some (rbind (map_result
                         (fun key =>
                            rbind (get_object (boto3_client region) bucket key)
                              (fun body => read_parquet (Bytes body)))
                         (List.filter (fun key => endswith key ".parquet") (concat pages)))
                  concat_vertical)
        /\ (forall df rest,
              map_result
                (fun key =>
                   rbind (get_object (boto3_client region) bucket key)
                     (fun body => read_parquet (Bytes body)))
                (List.filter (fun key => endswith key ".parquet") (concat pages))
              = Ok (df :: rest) ->
              Forall (fun d => schema d = schema df) rest ->
              load fuel bucket prefix None region
              = Some (Ok {| schema := schema df;
                            rows := concat (map rows (df :: rest)) |}))).
Proof.
  split; [exact is_local_spec | split].
  - intros bucket files Hl Hg Hne.
    assert (Hload : load fuel bucket prefix None region
      = Some (rbind (map_result (fun f => read_parquet (Path f)) (sorted files))
                concat_vertical)).
    { rewrite load_local_mode_b by exact Hl. rewrite Hg.
      destruct files; [congruence | reflexivity]. }
    split; [exact Hload | split; [| split]].
    + apply merge_sort_Permutation.
    + apply StronglySorted_merge_sort; apply _.
    + intros df rest Hr Hs. rewrite Hload, Hr. cbn [rbind].
      now rewrite concat_vertical_same_schema.
  - intros bucket pages Hl Hw Hne Hfuel.
    assert (Hload : load fuel bucket prefix None region
      = Some (rbind (map_result
                       (fun key =>
                          rbind (get_object (boto3_client region) bucket key)
                            (fun body => read_parquet (Bytes body)))
                       (List.filter (fun key => endswith key ".parquet") (concat pages)))
                concat_vertical)).
    { rewrite (load_remote_mode_b _ _ _ _ _ true Hl Hw Hfuel).
      fold (parquet_keys (concat pages)) in Hne |- *.
      destruct (parquet_keys (concat pages)); [congruence | reflexivity]. }
    split; [exact Hload |].
    intros df rest Hr Hs. rewrite Hload, Hr. cbn [rbind].
    now rewrite concat_vertical_same_schema.
Qed.

End LoaderFacts.

(** *** A small world to run the loader in *)

(** One column; every file holds one row, its own name. *)
Definition one_row (name : string) : DataFrame :=
  {| schema := [("chunk_text", "String")]; rows := [[VStr name]] |}.

Definition demo_read (src : source) : result DataFrame :=
  match src with Path p => Ok (one_row p) | Bytes body => Ok (one_row body) end.

(** A directory [./data] with two tables, and an empty one. *)
Definition demo_glob (pattern : string) : list string :=
  if String.eqb pattern "./data/**/*.parquet"
  then ["./data/b.parquet"; "./data/a/x.parquet"]
  else [].

(** A bucket listed in two pages, and a bucket without tables. *)
Definition demo_client : S3Client :=
  {| list_objects_v2 := fun p =>
       if String.eqb (Bucket p) "corpus" then
         match ContinuationToken p with
         | None =>
             Ok {| Contents := Some ["k2.parquet"; "notes.txt"];
                   IsTruncated := Some true;
                   NextContinuationToken := Some "t1" |}
         | Some _ =>
             Ok {| Contents := Some ["k1.parquet"];
                   IsTruncated := Some false;
                   NextContinuationToken := None |}
         end
       else
         Ok {| Contents := Some ["readme.txt"];
               IsTruncated := None;
               NextContinuationToken := None |};
     get_object := fun _ key => Ok key |}.

(** A store that lists one key on both of its pages. *)
Definition echo_client : S3Client :=
  {| list_objects_v2 := fun p =>
       match ContinuationToken p with
       | None =>
           Ok {| Contents := Some ["k.parquet"; "notes.txt"; "j.parquet"];
                 IsTruncated := Some true;
                 NextContinuationToken := Some "t1" |}
       | Some _ =>
           Ok {| Contents := Some ["k.parquet"; "notes.txt"];
                 IsTruncated := Some false;
                 NextContinuationToken := None |}
       end;
     get_object := fun _ key => Ok key |}.

(** Frames of different schemas are refused. *)
Definition demo_stack (dfs : list DataFrame) : result DataFrame :=
  Raise (OtherException "ShapeError").

Local Abbreviation demo_load :=
  (load_parquet_from_s3 (fun p => p) demo_glob demo_read (fun _ => demo_client)
     demo_stack).

Lemma mode_b_not_found_witness :
  demo_load 1%nat "./empty" None None "us-east-1"
  = Some (Raise (FileNotFoundError "No parquet files found in ./empty"))
  /\ demo_load 1%nat "archive" (Some "missing/") None "us-east-1"
     = Some (Raise (FileNotFoundError "No parquet files found in S3://archive/missing/")).
Proof.
  split.
  - apply (proj1 (mode_b_not_found (fun p => p) demo_glob demo_read (fun _ => demo_client)
      demo_stack
                    1%nat None "us-east-1") "./empty"); reflexivity.
  - apply (proj2 (mode_b_not_found (fun p => p) demo_glob demo_read (fun _ => demo_client)
      demo_stack
                    1%nat (Some "missing/") "us-east-1") "archive" [["readme.txt"]] true).
    + reflexivity.
    + eapply walk_last; reflexivity.
    + reflexivity.
    + cbn. lia.
Defined.

(** A bucket listed in two pages whose objects hold bytes of their
    own. *)
Definition bodies_client : S3Client :=
  {| list_objects_v2 := list_objects_v2 demo_client;
     get_object := fun bucket key => Ok ("PAR1 " +:+ bucket +:+ "/" +:+ key) |}.

Lemma mode_b_order_witness :
  demo_load 2%nat "./data" None None "us-east-1"
  = Some (Ok {| schema := [("chunk_text", "String")];
                rows := [[VStr "./data/a/x.parquet"]; [VStr "./data/b.parquet"]] |})
  /\ load_parquet_from_s3 (fun p => p) demo_glob demo_read (fun _ => bodies_client)
       demo_stack 2%nat "corpus" None None "us-east-1"
     = Some (Ok {| schema := [("chunk_text", "String")];
                   rows := [[VStr "PAR1 corpus/k2.parquet"];
                            [VStr "PAR1 corpus/k1.parquet"]] |}).
Proof.
  split.
  - destruct (mode_b_order (fun p => p) demo_glob demo_read (fun _ => demo_client)
                demo_stack 2%nat None "us-east-1") as (_ & Hlocal & _).
    destruct (Hlocal "./data" ["./data/b.parquet"; "./data/a/x.parquet"])
      as (_ & _ & _ & Hrows); [reflexivity | reflexivity | discriminate |].
    apply (Hrows (one_row "./data/a/x.parquet") [one_row "./data/b.parquet"]).
    + reflexivity.
    + repeat constructor.
  - destruct (mode_b_order (fun p => p) demo_glob demo_read (fun _ => bodies_client)
                demo_stack 2%nat None "us-east-1") as (_ & _ & Hremote).
    destruct (Hremote "corpus" [["k2.parquet"; "notes.txt"]; ["k1.parquet"]])
      as (_ & Hrows).
    + reflexivity.
    + eapply walk_next; [reflexivity | reflexivity | reflexivity |].
      eapply walk_last; reflexivity.
    + discriminate.
    + cbn. lia.
    + apply (Hrows (one_row "PAR1 corpus/k2.parquet") [one_row "PAR1 corpus/k1.parquet"]).
      * reflexivity.
      * repeat constructor.
Defined.

End S3Loader.

(** ** rag-query/config.py *)
Module RagConfig.

(** The process environment. *)
Abbreviation environ := (gmap string string).

(** [os.getenv(key, default)]. *)
Definition getenv (env : environ) (key fallback : string) : string :=
  default fallback (env !! key).

(** The class attributes of [Config]. *)
Record Config : Type := {
  PINECONE_API_KEY : string;
  ANTHROPIC_API_KEY : string;
  PINECONE_INDEX_NAME : string;
  PINECONE_NAMESPACE : string;
  VECTOR_DIMENSION : Z;
  CLAUDE_MODEL : string;
  EMBEDDING_MODEL_DENSE : string;
  EMBEDDING_MODEL_SPARSE : string;
  RERANKER_MODEL_ID : string;
  BASELINE_TOP_K : Z;
  HYBRID_TOP_K : Z;
  FILTER_ONLY_TOP_K : Z;
  RERANK_TOP_N : Z;
  MAX_NEW_TOKENS : Z;
  DO_SAMPLE : bool;
  OUTPUT_DIR : string
}.

(** The class body, run once in the environment of the process. *)
Definition Config_of (env : environ) : Config := {|
  PINECONE_API_KEY := getenv env "PINECONE_API_KEY" EmptyString;
  ANTHROPIC_API_KEY := getenv env "ANTHROPIC_API_KEY" EmptyString;
  PINECONE_INDEX_NAME := "test-index";
  PINECONE_NAMESPACE := "__default__";
  VECTOR_DIMENSION := 1024;
  CLAUDE_MODEL := "claude-haiku-4-5-20251001";
  EMBEDDING_MODEL_DENSE := "multilingual-e5-large";
  EMBEDDING_MODEL_SPARSE := "pinecone-sparse-english-v0";
  RERANKER_MODEL_ID := "cross-encoder/ms-marco-MiniLM-L-6-v2";
  BASELINE_TOP_K := 5;
  HYBRID_TOP_K := 100;
  FILTER_ONLY_TOP_K := 1000;
  RERANK_TOP_N := 5;
  MAX_NEW_TOKENS := 1024;
  DO_SAMPLE := false;
  OUTPUT_DIR := "outputs"
|}.

(** [not s] for a string. *)
Definition falsy (s : string) : bool := String.eqb s EmptyString.

(** [Config.validate()]: [Ok tt] is the return with no value. *)
Definition validate (cls : Config) : result unit :=
  if falsy (PINECONE_API_KEY cls) then
    Raise (ValueError "PINECONE_API_KEY environment variable is not set")
  else if falsy (ANTHROPIC_API_KEY cls) then
    Raise (ValueError "ANTHROPIC_API_KEY environment variable is not set")
  else Ok tt.

Lemma falsy_true (s : string) : falsy s = true <-> s = EmptyString.
Proof. unfold falsy. apply String.eqb_eq. Qed.

Lemma falsy_false (s : string) : falsy s = false <-> s <> EmptyString.
Proof. unfold falsy. apply String.eqb_neq. Qed.

(** What [validate] does, by the two class attributes. *)
Lemma validate_cases (cls : Config) :
  (PINECONE_API_KEY cls = EmptyString \/ ANTHROPIC_API_KEY cls = EmptyString ->
   exists msg, validate cls = Raise (ValueError msg))
  /\ (PINECONE_API_KEY cls <> EmptyString -> ANTHROPIC_API_KEY cls <> EmptyString ->
      validate cls = Ok tt).
Proof.
  unfold validate. split.
  - intros H.
    destruct (falsy (PINECONE_API_KEY cls)) eqn:Ep; [eauto |].
    destruct (falsy (ANTHROPIC_API_KEY cls)) eqn:Ea; [eauto |].
    apply falsy_false in Ep, Ea. tauto.
  - intros Hp Ha. apply falsy_false in Hp, Ha. now rewrite Hp, Ha.
Qed.

(** The claim with set and unset read on the environment: a variable
    is unset when the environment does not have it, set when it does. *)
Definition set_or_unset : Prop :=
  forall env : environ,
    (env !! "PINECONE_API_KEY" = None \/ env !! "ANTHROPIC_API_KEY" = None ->
     exists msg, validate (Config_of env) = Raise (ValueError msg))
    /\ (is_Some (env !! "PINECONE_API_KEY") /\ is_Some (env !! "ANTHROPIC_API_KEY") ->
        validate (Config_of env) = Ok tt).

(** C9 (as stated) fails: with PINECONE_API_KEY set to the empty string
    and ANTHROPIC_API_KEY set, [validate] raises. *)
Lemma validate_empty_value :
  validate (Config_of {[ "PINECONE_API_KEY" := EmptyString; "ANTHROPIC_API_KEY" := "sk" ]})
  = Raise (ValueError "PINECONE_API_KEY environment variable is not set")
  /\ ~ set_or_unset.
Proof.
  split; [reflexivity |]. intros H.
  destruct (H {[ "PINECONE_API_KEY" := EmptyString; "ANTHROPIC_API_KEY" := "sk" ]})
    as [_ Hset].
  assert (Hok : validate
                  (Config_of {[ "PINECONE_API_KEY" := EmptyString;
                                "ANTHROPIC_API_KEY" := "sk" ]}) = Ok tt).
  { apply Hset. split; eexists; reflexivity. }
  discriminate Hok.
Qed.

(** C9 (as amended): [validate] raises ValueError when either variable
    is absent from the environment or holds the empty string, and
    returns, with no value, when both hold a non-empty string. *)
Theorem validate_requires_both_keys (env : environ) :
  (env !! "PINECONE_API_KEY" = None \/ env !! "PINECONE_API_KEY" = Some EmptyString
   \/ env !! "ANTHROPIC_API_KEY" = None \/ env !! "ANTHROPIC_API_KEY" = Some EmptyString ->
   exists msg, validate (Config_of env) = Raise (ValueError msg))
  /\ (forall p a : string,
        env !! "PINECONE_API_KEY" = Some p -> env !! "ANTHROPIC_API_KEY" = Some a ->
        p <> EmptyString -> a <> EmptyString ->
        validate (Config_of env) = Ok tt).
Proof.
  destruct (validate_cases (Config_of env)) as [Hraise Hok]. split.
  - intros H. apply Hraise. cbn [PINECONE_API_KEY ANTHROPIC_API_KEY Config_of].
    unfold getenv. destruct H as [H | [H | [H | H]]]; rewrite H; cbn; tauto.
  - intros p a Hp Ha Hpne Hane. apply Hok;
      cbn [PINECONE_API_KEY ANTHROPIC_API_KEY Config_of]; unfold getenv.
    + now rewrite Hp.
    + now rewrite Ha.
Qed.

Lemma validate_requires_both_keys_witness :
  (exists msg, validate (Config_of {[ "PINECONE_API_KEY" := "pc" ]}) = Raise (ValueError msg))
  /\ validate (Config_of {[ "PINECONE_API_KEY" := "pc"; "ANTHROPIC_API_KEY" := "sk" ]})
     = Ok tt.
Proof.
  split.
  - apply (proj1 (validate_requires_both_keys {[ "PINECONE_API_KEY" := "pc" ]})).
    right. right. left. reflexivity.
  - apply (proj2 (validate_requires_both_keys
                    {[ "PINECONE_API_KEY" := "pc"; "ANTHROPIC_API_KEY" := "sk" ]})
             "pc" "sk"); [reflexivity | reflexivity | discriminate | discriminate].
Defined.

End RagConfig.

(** ** rag-query/llm_generation.py *)
Module LlmGeneration.
Import RagConfig.

(** A retrieved match, by the two keys the builder reads; [None] is a
    key the match does not have. *)
Record Match : Type := {
  metadata : option (gmap string pyval);
  score : option pyval
}.

(** [d.get(key, fallback)]. *)
Definition get (d : gmap string pyval) (key : string) (fallback : pyval) : pyval :=
  default fallback (d !! key).

Section Builder.
(** The interpreter's rendering of a double: [format(x, ".4f")] and
    [str(x)]. *)
Variable format_float_4f : float -> string.
Variable str_float : float -> string.

(** [f"{v}"]. *)
Definition fstr (v : pyval) : string :=
  match v with
  | VNone => "None"
  | VBool true => "True"
  | VBool false => "False"
  | VInt z => str_of_int z
  | VFloat x => str_float x
  | VStr s => s
  end.

(** [f"{v:.4f}"]: numbers only; an [int] goes through [float]. *)
Definition fstr_4f (v : pyval) : result string :=
  match v with
  | VNone => Raise (OtherException "TypeError")
  | VBool b => Ok (format_float_4f (if b then 1 else 0)%float)
  | VInt z => rbind (float_of_int z) (fun x => Ok (format_float_4f x))
  | VFloat x => Ok (format_float_4f x)
  | VStr _ => Raise (ValueError "Unknown format code 'f' for object of type 'str'")
  end.

(** Lines 39-47. *)
Definition tags_of (metadata : gmap string pyval) : list string :=
  let tags := [] in
  let tags := if eq_str (metadata !! "obligation") "Y" then tags ++ ["Obligation"] else tags in
  let tags := if eq_str (metadata !! "penalty") "Y" then tags ++ ["Penalty"] else tags in
  let tags := if eq_str (metadata !! "permission") "Y" then tags ++ ["Permission"] else tags in
  let tags := if eq_str (metadata !! "prohibition") "Y" then tags ++ ["Prohibition"] else tags in
  tags.

(** Lines 30-58: the body of the loop, on the variable
    [context_string]; [i] is the index [enumerate] gives. *)
Definition loop_body (context_string : string) (i : nat) (m : Match) : result string :=
  let metadata := default ∅ (metadata m) in
  let score := default (VInt 0) (score m) in
  let chunk_text := get metadata "text" (VStr "N/A") in
  let state := get metadata "state" (VStr "N/A") in
  let county := get metadata "county" (VStr "N/A") in
  let section := get metadata "section" (VStr "N/A") in
  let tags := tags_of metadata in
  let context_string :=
    context_string +:+ ("[Chunk " +:+ str_of_int (Z.of_nat i + 1) +:+ "]" +:+ nl) in
  rbind (fstr_4f score) (fun score_4f =>
  let context_string := context_string +:+ ("Score: " +:+ score_4f +:+ nl) in
  let context_string := context_string +:+ ("State: " +:+ fstr state +:+ nl) in
  let context_string := context_string +:+ ("County: " +:+ fstr county +:+ nl) in
  let context_string := context_string +:+ ("Section: " +:+ fstr section +:+ nl) in
  let context_string :=
    match tags with
    | [] => context_string
    | _ => context_string +:+ ("Tags: " +:+ join ", " tags +:+ nl)
    end in
  let context_string :=
    context_string +:+ ("Text: " +:+ dquote +:+ fstr chunk_text +:+ dquote +:+ nl +:+ nl) in
  Ok context_string).

(** [for i, match in enumerate(matches_to_process)], from index [i]. *)
Fixpoint loop (i : nat) (matches_to_process : list Match) (context_string : string)
    : result string :=
  match matches_to_process with
  | [] => Ok context_string
  | m :: rest =>
      rbind (loop_body context_string i m) (fun context_string =>
        loop (S i) rest context_string)
  end.

Definition build_context_string (retrieved_chunks : list Match) (max_chunks : option Z)
    : result string :=
  let context_string := EmptyString in
  match retrieved_chunks with
  | [] => Ok "No documents were retrieved."
  | _ =>
      let matches_to_process := retrieved_chunks in
      let matches_to_process :=
        match max_chunks with
        | Some k => slice_to matches_to_process k
        | None => matches_to_process
        end in
      loop 0 matches_to_process context_string
  end.

End Builder.

(** The LLM provider: [client.messages.create(model=, max_tokens=,
    system=, messages=)] on a client built with an API key. *)
Record MessageRequest : Type := {
  model : string;
  max_tokens : Z;
  system : string;
  messages : list (string * string)
}.

Record TextBlock : Type := { text : string }.
Record Message : Type := { content : list TextBlock }.

Definition filter_only_system_prompt : string :=
  nl +:+
  "    You are a highly intelligent legal analyst." +:+ nl +:+
  "    You will be given a *sample* of the top-retrieved legal documents." +:+ nl +:+
  "    Your task is to **provide a high-level summary of the main themes** found in this sample." +:+ nl +:+
  nl +:+
  "    - DO NOT try to answer a question." +:+ nl +:+
  "    - DO NOT say " +:+ dquote +:+ "I cannot find an answer." +:+ dquote +:+ nl +:+
  "    - Simply summarize what you see. Group similar topics together." +:+ nl +:+
  "    - Start your response with: " +:+ dquote +:+
  "The documents in this sample primarily discuss..." +:+ dquote +:+ nl +:+
  "  ".

Definition filter_only_user_prompt (context_string : string) : string :=
  nl +:+
  "    **Retrieved Chunks (Sample):**" +:+ nl +:+
  "    " +:+ context_string +:+ nl +:+
  "  ".

(** The arguments of the call at lines 137-142. *)
Definition filter_only_request (cfg : Config) (context_string : string) : MessageRequest :=
  let system_prompt := filter_only_system_prompt in
  let user_prompt := filter_only_user_prompt context_string in
  {| model := CLAUDE_MODEL cfg;
     max_tokens := MAX_NEW_TOKENS cfg;
     system := system_prompt;
     messages := [("user", user_prompt)] |}.

Section Generation.
Variable messages_create : string -> MessageRequest -> result Message.

Definition generate_llm_response_filter_only_search (cfg : Config)
    (query_text context_string : string) (num_total_chunks : Z) : result string :=
  rbind (messages_create (ANTHROPIC_API_KEY cfg) (filter_only_request cfg context_string))
    (fun message =>
       match content message with
       | [] => Raise IndexError
       | block :: _ =>
           let response_text := text block in
           Ok ("Found " +:+ str_of_int num_total_chunks +:+ " laws matching your filters. "
               +:+ "A full list is available in the generated CSV file." +:+ nl +:+ nl
               +:+ "Here is a quick summary of the first 10 results:" +:+ nl +:+ nl
               +:+ response_text)
       end).

End Generation.

(** *** The context string, block by block *)

(** The deterministic prefix of the filter-only answer, as the design
    document words it. *)
Definition found_prefix (total_chunk_count : Z) : string :=
  "Found " +:+ str_of_int total_chunk_count
  +:+ " laws matching your filters. A full list is available in the generated CSV file."
  +:+ nl +:+ nl +:+ "Here is a quick summary of the first 10 results:" +:+ nl +:+ nl.

(** The optional line of a block. *)
Definition tags_line (tags : list string) : string :=
  match tags with
  | [] => EmptyString
  | _ => "Tags: " +:+ join ", " tags +:+ nl
  end.


Section BuilderFacts.
Variable format_float_4f : float -> string.
Variable str_float : float -> string.

Local Abbreviation fstr := (fstr str_float).
Local Abbreviation fstr_4f := (fstr_4f format_float_4f).
Local Abbreviation loop_body := (loop_body format_float_4f str_float).
Local Abbreviation loop := (loop format_float_4f str_float).
Local Abbreviation build_context_string := (build_context_string format_float_4f str_float).

(** The text one match adds. *)
Definition block (i : nat) (m : Match) : result string := loop_body EmptyString i m.

(** The blocks of a list of matches, numbered from [i]. *)
Fixpoint blocks (i : nat) (l : list Match) : result (list string) :=
  match l with
  | [] => Ok []
  | m :: rest =>
      rbind (block i m) (fun b => rbind (blocks (S i) rest) (fun bs => Ok (b :: bs)))
  end.

(** The lines of a block before and after the optional one. *)
Definition block_head (i : nat) (score_4f : string) (md : gmap string pyval) : string :=
  "[Chunk " +:+ str_of_int (Z.of_nat i + 1) +:+ "]" +:+ nl
  +:+ "Score: " +:+ score_4f +:+ nl
  +:+ "State: " +:+ fstr (get md "state" (VStr "N/A")) +:+ nl
  +:+ "County: " +:+ fstr (get md "county" (VStr "N/A")) +:+ nl
  +:+ "Section: " +:+ fstr (get md "section" (VStr "N/A")) +:+ nl.

Definition block_text (md : gmap string pyval) : string :=
  "Text: " +:+ dquote +:+ fstr (get md "text" (VStr "N/A")) +:+ dquote +:+ nl +:+ nl.

Lemma loop_body_closed_form (cs : string) (i : nat) (m : Match) :
  loop_body cs i m
  = rbind (fstr_4f (default (VInt 0) (score m))) (fun score_4f =>
      Ok (cs +:+ block_head i score_4f (default ∅ (metadata m))
          +:+ tags_line (tags_of (default ∅ (metadata m)))
          +:+ block_text (default ∅ (metadata m)))).
Proof.
  unfold LlmGeneration.loop_body, block_head, block_text, tags_line.
  destruct (fstr_4f _) as [s | e]; [| reflexivity]. cbn [rbind]. f_equal.
  destruct (tags_of _); rewrite ?append_assoc; reflexivity.
Qed.

Lemma loop_body_block (cs : string) (i : nat) (m : Match) :
  loop_body cs i m = rbind (block i m) (fun b => Ok (cs +:+ b)).
Proof.
  unfold block. rewrite !loop_body_closed_form.
  destruct (fstr_4f _); reflexivity.
Qed.

Lemma loop_blocks (l : list Match) : forall (i : nat) (cs : string),
  loop i l cs = rbind (blocks i l) (fun bs => Ok (cs +:+ String.concat EmptyString bs)).
Proof.
  induction l as [|m rest IH]; intros i cs.
  - cbn. now rewrite append_nil_r.
  - cbn [LlmGeneration.loop blocks]. rewrite loop_body_block.
    destruct (block i m) as [b | e]; [| reflexivity]. cbn [rbind]. rewrite IH.
    destruct (blocks (S i) rest) as [bs | e]; [| reflexivity]. cbn [rbind]. f_equal.
    rewrite append_assoc. f_equal.
    destruct bs as [|b' bs]; cbn; [now rewrite append_nil_r | reflexivity].
Qed.

Lemma block_header (i : nat) (m : Match) (b : string) :
  block i m = Ok b ->
  exists rest, b = "[Chunk " +:+ str_of_int (Z.of_nat i + 1) +:+ "]" +:+ nl +:+ rest.
Proof.
  unfold block. rewrite loop_body_closed_form.
  destruct (fstr_4f _) as [s | e]; [| discriminate]. intros [= <-].
  unfold block_head. change (EmptyString +:+ ?x) with x.
  rewrite !append_assoc. eexists. reflexivity.
Qed.

Lemma blocks_headers (l : list Match) : forall (i : nat) (bs : list string),
  blocks i l = Ok bs ->
  length bs = length l
  /\ forall (j : nat) (b : string), bs !! j = Some b ->
       exists rest,
         b = "[Chunk " +:+ str_of_int (Z.of_nat (i + j) + 1) +:+ "]" +:+ nl +:+ rest.
Proof.
  induction l as [|m rest IH]; intros i bs; cbn [blocks].
  - intros [= <-]. split; [reflexivity | intros j b H; discriminate H].
  - destruct (block i m) as [b0 | e] eqn:Eb; [| discriminate]. cbn [rbind].
    destruct (blocks (S i) rest) as [bs0 | e] eqn:Er; [| discriminate]. cbn [rbind].
    intros [= <-]. destruct (IH _ _ Er) as [Hlen Hhd]. split.
    + cbn. now rewrite Hlen.
    + intros [|j] b Hj; cbn in Hj.
      * injection Hj as <-. rewrite Nat.add_0_r. now apply (block_header i m).
      * replace (i + S j)%nat with (S i + j)%nat by lia. now apply Hhd.
Qed.

Lemma build_nonempty (matches : list Match) (max_chunks : option Z) :
  matches <> [] ->
  build_context_string matches max_chunks
  = rbind (blocks 0 (match max_chunks with
                     | Some k => slice_to matches k
                     | None => matches
                     end))
      (fun bs => Ok (String.concat EmptyString bs)).
Proof.
  intros Hne. unfold LlmGeneration.build_context_string.
  destruct matches as [|m rest]; [congruence |].
  rewrite loop_blocks. reflexivity.
Qed.

(** The claim for every [k], negative ones too: the output is made of
    the blocks of the first [k] matches, none when [k] is negative. *)
Definition first_k_blocks : Prop :=
  forall (matches : list Match) (k : Z),
    matches <> [] ->
    build_context_string matches (Some k)
    = rbind (blocks 0 (take (Z.to_nat k) matches))
        (fun bs => Ok (String.concat EmptyString bs)).

(** X25: on the empty list the builder returns exactly "No documents
    were retrieved."; on a non-empty list with [max_chunks = k], a
    count ([k >= 0]), its output is the blocks of the first [k]
    matches, [min(k, length)] of them, the [j]-th headed "[Chunk j]";
    with [max_chunks] absent it is one block per match. *)
Theorem build_context_string_blocks (matches : list Match) (k : Z) :
  matches <> [] ->
  0 <= k ->
  (forall max_chunks,
     build_context_string [] max_chunks = Ok "No documents were retrieved.")
  /\ build_context_string matches (Some k)
     = rbind (blocks 0 (take (Z.to_nat k) matches))
         (fun bs => Ok (String.concat EmptyString bs))
  /\ length (take (Z.to_nat k) matches) = Nat.min (Z.to_nat k) (length matches)
  /\ build_context_string matches None
     = rbind (blocks 0 matches) (fun bs => Ok (String.concat EmptyString bs))
  /\ (forall (shown : list Match) (bs : list string),
        blocks 0 shown = Ok bs ->
        length bs = length shown
        /\ forall (j : nat) (b : string), bs !! j = Some b ->
             exists rest,
               b = "[Chunk " +:+ str_of_int (Z.of_nat j + 1) +:+ "]" +:+ nl +:+ rest).
Proof.
  intros Hne Hk. split_and!.
  - reflexivity.
  - rewrite build_nonempty by exact Hne. unfold slice_to.
    destruct (Z.leb_spec 0 k); [reflexivity | lia].
  - apply length_take.
  - now rewrite build_nonempty.
  - intros shown bs Hb. exact (blocks_headers shown 0 bs Hb).
Qed.

(** C10: on a non-empty list a limit of zero gives the empty string,
    not the "No documents were retrieved." message. *)
Theorem zero_limit_gives_empty_context (matches : list Match) :
  matches <> [] ->
  build_context_string matches (Some 0) = Ok EmptyString.
Proof.
  intros Hne. rewrite build_nonempty by exact Hne. reflexivity.
Qed.


End BuilderFacts.

(** *** The builder on sample matches *)

(** A rendering of doubles that is enough for the samples. *)
Definition sample_4f (x : float) : string :=
  if (x =? 0)%float then "0.0000" else "0.9000".

Definition sample_str (x : float) : string := "0.9".

Definition law (state : string) (flags : list (string * string)) : Match :=
  {| metadata :=
       Some (list_to_map
               (("text", VStr "No person shall ...") :: ("state", VStr state)
                :: map (fun kv => (kv.1, VStr kv.2)) flags));
     score := Some (VFloat 0.9) |}.

Definition five_chunks : list Match :=
  [ law "NY" [("obligation", "Y"); ("penalty", "Y"); ("permission", "N")];
    {| metadata := None; score := None |};
    law "CA" [];
    law "TX" [("prohibition", "Y")];
    law "WA" [("permission", "Y")] ].

Lemma build_context_string_blocks_witness :
  build_context_string sample_4f sample_str five_chunks (Some 2)
  = rbind (blocks sample_4f sample_str 0 (take 2 five_chunks))
      (fun bs => Ok (String.concat EmptyString bs))
  /\ length (take 2 five_chunks) = 2%nat.
Proof.
  destruct (build_context_string_blocks sample_4f sample_str five_chunks 2)
    as (_ & Hout & Hlen & _).
  - discriminate.
  - lia.
  - split; [exact Hout | exact Hlen].
Defined.

(** C4: with [max_chunks = -1] the five matches give the blocks
    "[Chunk 1]" to "[Chunk 4]": the slice [[:-1]] drops the last match
    only, where the claim, like the docstring ("maximum number of
    chunks to include") and the comment ("only send the first N
    chunks"), allows no block at all. *)
Theorem negative_limit_keeps_blocks :
  build_context_string sample_4f sample_str five_chunks (Some (-1))
  = rbind (blocks sample_4f sample_str 0 (take 4 five_chunks))
      (fun bs => Ok (String.concat EmptyString bs))
  /\ (exists b1 b2 b3 b4,
        blocks sample_4f sample_str 0 (take 4 five_chunks) = Ok [b1; b2; b3; b4])
  /\ build_context_string sample_4f sample_str five_chunks (Some (-1)) <> Ok EmptyString
  /\ ~ first_k_blocks sample_4f sample_str.
Proof.
  split_and!.
  - reflexivity.
  - vm_compute. do 4 eexists. reflexivity.
  - vm_compute. discriminate.
  - intros H. specialize (H five_chunks (-1) ltac:(discriminate)).
    vm_compute in H. discriminate H.
Qed.

Lemma zero_limit_gives_empty_context_witness :
  build_context_string sample_4f sample_str five_chunks (Some 0) = Ok EmptyString.
Proof.
  apply (zero_limit_gives_empty_context sample_4f sample_str five_chunks).
  discriminate.
Defined.

(** The text of the first two of the five. *)
Example two_of_five :
  build_context_string sample_4f sample_str five_chunks (Some 2)
  = Ok ("[Chunk 1]" +:+ nl +:+ "Score: 0.9000" +:+ nl +:+ "State: NY" +:+ nl
        +:+ "County: N/A" +:+ nl +:+ "Section: N/A" +:+ nl
        +:+ "Tags: Obligation, Penalty" +:+ nl
        +:+ "Text: " +:+ dquote +:+ "No person shall ..." +:+ dquote +:+ nl +:+ nl
        +:+ "[Chunk 2]" +:+ nl +:+ "Score: 0.0000" +:+ nl +:+ "State: N/A" +:+ nl
        +:+ "County: N/A" +:+ nl +:+ "Section: N/A" +:+ nl
        +:+ "Text: " +:+ dquote +:+ "N/A" +:+ dquote +:+ nl +:+ nl).
Proof. vm_compute. reflexivity. Qed.

(** The metadata {obligation: "Y", penalty: "Y", permission: "N"}, with
    no prohibition field. *)
Example tags_obligation_penalty :
  tags_line (tags_of {[ "obligation" := VStr "Y"; "penalty" := VStr "Y";
                        "permission" := VStr "N" ]})
  = "Tags: Obligation, Penalty" +:+ nl.
Proof. vm_compute. reflexivity. Qed.

(** *** The filter-only answer *)

(** C8: whatever text the provider returns as the first segment of its
    reply, the function returns the fixed prefix, with the total count
    in it, followed by that text. *)
Theorem filter_only_answer (messages_create : string -> MessageRequest -> result Message)
    (cfg : Config) (query_text context_string : string) (num_total_chunks : Z)
    (message : Message) (summary : string) (more : list TextBlock) :
  messages_create (ANTHROPIC_API_KEY cfg) (filter_only_request cfg context_string)
  = Ok message ->
  content message = {| text := summary |} :: more ->
  generate_llm_response_filter_only_search messages_create cfg query_text context_string
    num_total_chunks
  = Ok (found_prefix num_total_chunks +:+ summary).
Proof.
  intros Hcall Hcontent. unfold generate_llm_response_filter_only_search.
  rewrite Hcall. cbn [rbind]. rewrite Hcontent. cbn [text]. f_equal.
  unfold found_prefix. rewrite !append_assoc. reflexivity.
Qed.

Definition sample_provider (api_key : string) (request : MessageRequest) : result Message :=
  Ok {| content := [{| text := "The documents in this sample primarily discuss zoning." |}] |}.

Lemma filter_only_answer_witness :
  generate_llm_response_filter_only_search sample_provider (Config_of ∅)
    EmptyString "[Chunk 1]" 42
  = Ok (found_prefix 42 +:+ "The documents in this sample primarily discuss zoning.").
Proof.
  apply (filter_only_answer sample_provider (Config_of ∅) EmptyString "[Chunk 1]" 42
           {| content := [{| text := "The documents in this sample primarily discuss zoning." |}] |}
           "The documents in this sample primarily discuss zoning." []);
    reflexivity.
Defined.

(** The answer for 42 chunks begins as the design document says. *)
Example found_42 :
  startswith (found_prefix 42) "Found 42 laws matching your filters." = true.
Proof. reflexivity. Qed.

End LlmGeneration.

(** ** api.py *)
Module Api.

(** JSON values of a request or response body. *)
Inductive json : Type :=
| JNull
| JBool (b : bool)
| JNumber (z : Z)
| JFloat (x : float)
| JString (s : string)
| JArray (items : list json)
| JObject (fields : list (string * json)).

(** The pipeline class lives in a module outside this source tree; an
    instance is known here by its constructor argument. *)
Record RAGPipeline : Type := { use_reranking : bool }.

Definition baseline_pipeline : RAGPipeline := {| use_reranking := false |}.
Definition hybrid_pipeline : RAGPipeline := {| use_reranking := true |}.

(** The body of the response. *)
Record QueryResponse : Type := {
  response : json;
  chunks : json;
  mode : json
}.

(** [mode == 'hybrid']. *)
Definition is_hybrid (mode : json) : bool :=
  match mode with
  | JString s => String.eqb s "hybrid"
  | _ => false
  end.

Section Handler.
(** [pipeline.run(query_text, filters)]. *)
Variable run : RAGPipeline -> json -> json -> result (json * json).

(** The pipeline the handler picks for a mode (line 24). *)
Definition select_pipeline (mode : json) : RAGPipeline :=
  if is_hybrid mode then hybrid_pipeline else baseline_pipeline.

(** [query()], on the decoded body [data] of the request. *)
Definition query (data : gmap string json) : result QueryResponse :=
  let query_text := default (JString EmptyString) (data !! "query") in
  let filters := default (JObject []) (data !! "filters") in
  let mode := default (JString "hybrid") (data !! "mode") in
  let pipeline := select_pipeline mode in
  rbind (run pipeline query_text filters) (fun out =>
    let '(llm_output, retrieved_chunks) := out in
    Ok {| response := llm_output; chunks := retrieved_chunks; mode := mode |}).

(** The mode value the handler takes from a request. *)
Definition request_mode (data : gmap string json) : json :=
  default (JString "hybrid") (data !! "mode").

(** C3: the handler runs the hybrid pipeline exactly when the mode of
    the request, "hybrid" when the field is absent, is the string
    "hybrid", and the baseline pipeline for every other value; the
    response carries the mode taken from the request whichever
    pipeline ran. *)
Theorem query_selects_by_mode (data : gmap string json) :
  query data
  = rbind (run (select_pipeline (request_mode data))
             (default (JString EmptyString) (data !! "query"))
             (default (JObject []) (data !! "filters")))
      (fun out => Ok {| response := out.1; chunks := out.2; mode := request_mode data |})
  /\ (select_pipeline (request_mode data) = hybrid_pipeline
       <-> request_mode data = JString "hybrid")
  /\ (select_pipeline (request_mode data) = baseline_pipeline
       <-> request_mode data <> JString "hybrid")
  /\ (data !! "mode" = None -> select_pipeline (request_mode data) = hybrid_pipeline)
  /\ (forall r, query data = Ok r -> mode r = request_mode data).
Proof.
  assert (Hh : forall m, is_hybrid m = true <-> m = JString "hybrid").
  { intros m. destruct m; cbn; try (split; [discriminate | intros [=]]).
    rewrite String.eqb_eq. split; [now intros -> | now intros [= ->]]. }
  assert (Hq : query data
    = rbind (run (select_pipeline (request_mode data))
               (default (JString EmptyString) (data !! "query"))
               (default (JObject []) (data !! "filters")))
        (fun out => Ok {| response := out.1; chunks := out.2; mode := request_mode data |})).
  { unfold query, request_mode. destruct (run _ _ _) as [[a b] | e]; reflexivity. }
  split_and!.
  - exact Hq.
  - unfold select_pipeline. rewrite <- Hh.
    destruct (is_hybrid (request_mode data)); split; (reflexivity || discriminate).
  - unfold select_pipeline. rewrite <- Hh.
    destruct (is_hybrid (request_mode data)); split; (congruence || discriminate || reflexivity).
  - intros Hm. unfold request_mode. rewrite Hm. reflexivity.
  - intros r Hr. rewrite Hq in Hr.
    destruct (run _ _ _) as [out | e]; [| discriminate]. now injection Hr as <-.
Qed.

End Handler.

(** A pipeline that answers with the name of the instance that ran. *)
Definition naming_run (pipeline : RAGPipeline) (query_text filters : json)
    : result (json * json) :=
  Ok (JString (if use_reranking pipeline then "hybrid ran" else "baseline ran"), JArray []).

Example query_without_mode :
  query naming_run {[ "query" := JString "noise limits" ]}
  = Ok {| response := JString "hybrid ran"; chunks := JArray []; mode := JString "hybrid" |}.
Proof. reflexivity. Qed.

Example query_with_other_mode :
  query naming_run {[ "query" := JString "noise limits"; "mode" := JString "anything-else" ]}
  = Ok {| response := JString "baseline ran"; chunks := JArray [];
          mode := JString "anything-else" |}.
Proof. reflexivity. Qed.

End Api.

(** ** rag_ingest/embed_sparse.py: whole runs *)
Module EmbedSparseRuns.
Import EmbedSparse.

(** The batches of a run: the slices the loop cuts, in order. *)
Definition batch_starts (n : nat) (batch_size : Z) : list nat :=
  match range0 n batch_size with Ok starts => starts | Raise _ => [] end.

Definition batches_of (all_chunks : list pyval) (batch_size : Z) : list (list pyval) :=
  map (fun i => slice all_chunks i (i + Z.to_nat batch_size))
    (batch_starts (length all_chunks) batch_size).

(** The trace of a run in which every call is answered at once. *)
Definition paced_trace (embed_model : string) (delay : Q) (batches : list (list pyval))
    : list event :=
  flat_map (fun b => [EmbedCall embed_model b; Sleep delay]) batches.

(** [len(item.sparse_indices) == len(item.sparse_values)]. *)
Definition parallel_item (item : Item) : Prop :=
  length (sparse_indices item) = length (sparse_values item).

Definition parallel (r : SparseEmbedding) : Prop :=
  length (indices r) = length (values r).

Lemma rate_ok (requests_per_minute : Z) :
  requests_per_minute <> 0 -> fits_double requests_per_minute = true ->
  truediv_float_int 60 requests_per_minute = Ok (60 / inject_Z requests_per_minute)%Q.
Proof.
  intros Hne Hfit. unfold truediv_float_int. rewrite Hfit. cbn [negb].
  destruct (Z.eqb_spec requests_per_minute 0); [contradiction | reflexivity].
Qed.

Lemma run_unfold pc df text_col embed_model batch_size requests_per_minute w
    texts d starts :
  get_column df text_col = Ok texts ->
  truediv_float_int 60 requests_per_minute = Ok d ->
  range0 (length texts) batch_size = Ok starts ->
  embed_sparse pc df text_col embed_model batch_size requests_per_minute w
  = match for_each (batch_body pc embed_model (Z.to_nat batch_size) d texts)
            starts ([], None) w with
    | (Ok vars, w') => (Ok vars.1, w')
    | (Raise e, w') => (Raise e, w')
    end.
Proof.
  intros Hcol Hd Hr. unfold embed_sparse, lift.
  unfold mbind at 1. unfold M_bind at 1. rewrite Hcol.
  unfold mbind at 1. unfold M_bind at 1. rewrite Hd.
  unfold mbind at 1. unfold M_bind at 1. rewrite Hr.
  reflexivity.
Qed.

Lemma range0_first (n : nat) (step : Z) :
  (0 < n)%nat -> 0 < step ->
  exists rest, range0 n step = Ok (0%nat :: rest).
Proof.
  intros Hn Hs. unfold range0.
  destruct (Z.eqb_spec step 0); [lia |]. destruct (Z.ltb_spec step 0); [lia |].
  set (s := Z.to_nat step). assert (Hpos : (0 < s)%nat) by (subst s; lia).
  destruct ((n + s - 1) / s)%nat as [|c] eqn:Ec.
  - apply Nat.div_small_iff in Ec; lia.
  - cbn. eexists. reflexivity.
Qed.

Lemma range_from_map (count : nat) : forall start step,
  range_from start count step = map (fun j => (start + j * step)%nat) (seq 0 count).
Proof.
  induction count as [|c IH]; intros start step; [reflexivity |].
  cbn [range_from seq map]. f_equal; [lia |].
  rewrite IH, <- seq_shift, map_map. apply map_ext. intros j. lia.
Qed.

Lemma slices_concat (l : list pyval) (s count : nat) : forall i,
  (length l <= i + count * s)%nat ->
  concat (map (fun j => slice l j (j + s)) (range_from i count s)) = drop i l.
Proof.
  induction count as [|c IH]; intros i Hlen.
  - cbn. rewrite drop_ge by lia. reflexivity.
  - cbn [range_from map concat]. rewrite IH by lia. unfold slice.
    replace (i + s - i)%nat with s by lia.
    rewrite <- drop_drop, take_drop. reflexivity.
Qed.

Lemma batches_cover (texts : list pyval) (batch_size : Z) :
  0 < batch_size ->
  concat (batches_of texts batch_size) = texts
  /\ Forall (fun b => (0 < length b <= Z.to_nat batch_size)%nat)
       (batches_of texts batch_size).
Proof.
  intros Hbs. unfold batches_of, batch_starts, range0.
  destruct (Z.eqb_spec batch_size 0) as [? | _]; [lia |].
  destruct (Z.ltb_spec batch_size 0) as [? | _]; [lia |].
  set (s := Z.to_nat batch_size). assert (Hpos : (0 < s)%nat) by (subst s; lia).
  set (n := length texts). set (c := ((n + s - 1) / s)%nat).
  pose proof (Nat.div_mod_eq (n + s - 1) s) as Hd.
  pose proof (Nat.mod_upper_bound (n + s - 1) s ltac:(lia)) as Hm.
  fold c in Hd. split.
  - rewrite slices_concat; [reflexivity |]. fold n. nia.
  - rewrite range_from_map. apply List.Forall_forall. intros b Hb.
    apply in_map_iff in Hb as (i & <- & Hi).
    apply in_map_iff in Hi as (j & <- & Hj). apply in_seq in Hj.
    unfold slice. rewrite length_take, length_drop. fold n.
    assert (j * s < n)%nat by nia. lia.
Qed.

(** X1: a request rate of zero raises ZeroDivisionError once the text
    column is read, before any call to the provider and any sleep. *)
Theorem zero_rate_raises_before_any_call (pc : Pinecone) (df : DataFrame)
    (text_col embed_model : string) (batch_size : Z) (w : world) (texts : list pyval) :
  get_column df text_col = Ok texts ->
  embed_sparse pc df text_col embed_model batch_size 0 w = (Raise ZeroDivisionError, w).
Proof.
  intros Hcol. unfold embed_sparse, lift.
  unfold mbind at 1. unfold M_bind at 1. rewrite Hcol. reflexivity.
Qed.

Lemma zero_rate_raises_before_any_call_witness :
  embed_sparse flaky_client three_rows "chunk_text" "m" 2 0 start
  = (Raise ZeroDivisionError, start).
Proof.
  apply (zero_rate_raises_before_any_call flaky_client three_rows "chunk_text" "m" 2 start
           [VStr "a"; VStr EmptyString; VStr "c"]).
  reflexivity.
Defined.

(** X2: a batch size of zero raises ValueError before any call to the
    provider, whatever the table holds. *)
Theorem zero_batch_size_raises (pc : Pinecone) (df : DataFrame)
    (text_col embed_model : string) (requests_per_minute : Z) (w : world)
    (texts : list pyval) :
  get_column df text_col = Ok texts ->
  requests_per_minute <> 0 -> fits_double requests_per_minute = true ->
  embed_sparse pc df text_col embed_model 0 requests_per_minute w
  = (Raise (ValueError "range() arg 3 must not be zero"), w).
Proof.
  intros Hcol Hne Hfit. unfold embed_sparse, lift.
  unfold mbind at 1. unfold M_bind at 1. rewrite Hcol.
  unfold mbind at 1. unfold M_bind at 1. rewrite (rate_ok _ Hne Hfit).
  reflexivity.
Qed.

Lemma zero_batch_size_raises_witness :
  embed_sparse flaky_client three_rows "chunk_text" "m" 0 5 start
  = (Raise (ValueError "range() arg 3 must not be zero"), start).
Proof.
  apply (zero_batch_size_raises flaky_client three_rows "chunk_text" "m" 5 start
           [VStr "a"; VStr EmptyString; VStr "c"]);
    [reflexivity | discriminate | reflexivity].
Defined.

(** X3: with no batch to send (an empty text column, or a negative
    batch size) the function returns the empty list without calling
    the provider and without sleeping. *)
Theorem no_batch_no_call (pc : Pinecone) (df : DataFrame)
    (text_col embed_model : string) (batch_size requests_per_minute : Z) (w : world)
    (texts : list pyval) :
  get_column df text_col = Ok texts ->
  requests_per_minute <> 0 -> fits_double requests_per_minute = true ->
  (texts = [] /\ batch_size <> 0) \/ batch_size < 0 ->
  embed_sparse pc df text_col embed_model batch_size requests_per_minute w = (Ok [], w).
Proof.
  intros Hcol Hne Hfit Hcase.
  assert (Hr : range0 (length texts) batch_size = Ok []).
  { unfold range0. destruct (Z.eqb_spec batch_size 0) as [-> | Hb]; [lia |].
    destruct (Z.ltb_spec batch_size 0) as [? | Hpos]; [reflexivity |].
    destruct Hcase as [[-> _] | ?]; [| lia]. cbn [length].
    replace ((0 + Z.to_nat batch_size - 1) / Z.to_nat batch_size)%nat with 0%nat;
      [reflexivity |].
    symmetry. apply Nat.div_small. lia. }
  rewrite (run_unfold _ _ _ _ _ _ _ _ _ _ Hcol (rate_ok _ Hne Hfit) Hr). reflexivity.
Qed.

Lemma no_batch_no_call_witness :
  embed_sparse flaky_client three_rows "chunk_text" "m" (-2) 5 start = (Ok [], start).
Proof.
  apply (no_batch_no_call flaky_client three_rows "chunk_text" "m" (-2) 5 start
           [VStr "a"; VStr EmptyString; VStr "c"]);
    [reflexivity | discriminate | reflexivity | right; lia].
Defined.

(** X4: when the first batch ends in a raise (the fifth retried
    failure, or a failure that is not retried) the whole run raises
    that error: nothing is returned, no later batch is sent and no
    pacing sleep is made. *)
Theorem first_batch_failure_aborts (pc : Pinecone) (df : DataFrame)
    (text_col embed_model : string) (batch_size requests_per_minute : Z) (w : world)
    (texts : list pyval) (k : nat) (e : exn) :
  get_column df text_col = Ok texts ->
  texts <> [] ->
  0 < batch_size ->
  requests_per_minute <> 0 -> fits_double requests_per_minute = true ->
  (k <= 4)%nat ->
  (forall j, (j < k)%nat -> exists e',
      inference_embed pc (calls w + j) embed_model
        (take (Z.to_nat batch_size) texts) params = Raise e'
      /\ retried e' = true) ->
  inference_embed pc (calls w + k) embed_model
    (take (Z.to_nat batch_size) texts) params = Raise e ->
  k = 4%nat \/ retried e = false ->
  embed_sparse pc df text_col embed_model batch_size requests_per_minute w
  = (Raise e,
     {| calls := calls w + k + 1;
        trace := trace w
                 ++ attempts_trace embed_model (take (Z.to_nat batch_size) texts) k |}).
Proof.
  intros Hcol Htexts Hbs Hne Hfit Hk Hfail Hlast Hend.
  destruct (range0_first (length texts) batch_size) as [rest Hr];
    [destruct texts; [congruence | cbn; lia] | exact Hbs |].
  rewrite (run_unfold _ _ _ _ _ _ _ _ _ _ Hcol (rate_ok _ Hne Hfit) Hr).
  cbn [for_each]. unfold mbind at 1. unfold M_bind at 1.
  unfold batch_body. cbn [fst snd]. unfold slice.
  replace (0 + Z.to_nat batch_size - 0)%nat with (Z.to_nat batch_size) by lia.
  change (drop 0 texts) with texts. unfold mbind at 1. unfold M_bind at 1.
  rewrite (attempt_loop_run pc embed_model _ w None k (Raise e) Hk Hfail Hlast Hend).
  reflexivity.
Qed.

Lemma first_batch_failure_aborts_witness :
  embed_sparse (failing_client (PineconeApiException (Some 429))) three_rows
    "chunk_text" "m" 2 5 start
  = (Raise (PineconeApiException (Some 429)),
     {| calls := 5;
        trace := attempts_trace "m" [VStr "a"; VStr EmptyString] 4 |}).
Proof.
  apply (first_batch_failure_aborts (failing_client (PineconeApiException (Some 429)))
           three_rows "chunk_text" "m" 2 5 start
           [VStr "a"; VStr EmptyString; VStr "c"] 4 (PineconeApiException (Some 429))).
  - reflexivity.
  - discriminate.
  - lia.
  - discriminate.
  - reflexivity.
  - lia.
  - intros j Hj. eexists. split; reflexivity.
  - reflexivity.
  - left. reflexivity.
Defined.

(** The provider answers every call at once, one item per input. *)
Definition answers_at_once (pc : Pinecone) (embed_model : string) (f : pyval -> Item)
    : Prop :=
  forall (n : nat) (inputs : list pyval),
    inference_embed pc n embed_model inputs params = Ok (map f inputs).

Section AtOnce.
Variable pc : Pinecone.
Variable embed_model : string.
Variable f : pyval -> Item.
Hypothesis Hpc : answers_at_once pc embed_model f.
Variable batch_size : nat.
Variable delay : Q.
Variable all_chunks : list pyval.

Lemma attempt_loop_at_once chunk_batch r0 w :
  attempt_loop pc embed_model chunk_batch (seq 0 max_retries) 1%Q r0 w
  = (Ok (Some (map f chunk_batch)), called w embed_model chunk_batch).
Proof. apply attempt_returns. apply Hpc. Qed.

Lemma batch_body_at_once acc r0 i w :
  Qle_bool 0 delay = true ->
  batch_body pc embed_model batch_size delay all_chunks (acc, r0) i w
  = (Ok (acc ++ map (fun t => to_sparse_embedding (f t))
                  (slice all_chunks i (i + batch_size)),
         Some (map f (slice all_chunks i (i + batch_size)))),
     slept (called w embed_model (slice all_chunks i (i + batch_size))) delay).
Proof.
  intros Hd. unfold batch_body. cbn [fst snd].
  unfold mbind at 1. unfold M_bind at 1. rewrite attempt_loop_at_once.
  unfold mbind, M_bind, mret, M_ret, sleep. rewrite Hd.
  rewrite fold_left_snoc, map_map. reflexivity.
Qed.

Lemma batch_body_sleep_raises acc r0 i w :
  Qle_bool 0 delay = false ->
  batch_body pc embed_model batch_size delay all_chunks (acc, r0) i w
  = (Raise (ValueError "sleep length must be non-negative"),
     called w embed_model (slice all_chunks i (i + batch_size))).
Proof.
  intros Hd. unfold batch_body. cbn [fst snd].
  unfold mbind at 1. unfold M_bind at 1. rewrite attempt_loop_at_once.
  unfold mbind, M_bind, mret, M_ret, sleep. rewrite Hd. reflexivity.
Qed.

Lemma for_each_at_once (starts : list nat) : forall acc r0 w,
  Qle_bool 0 delay = true ->
  exists r,
    for_each (batch_body pc embed_model batch_size delay all_chunks) starts (acc, r0) w
    = (Ok (acc ++ map (fun t => to_sparse_embedding (f t))
                    (concat (map (fun i => slice all_chunks i (i + batch_size)) starts)),
           r),
       {| calls := calls w + length starts;
          trace := trace w
                   ++ paced_trace embed_model delay
                        (map (fun i => slice all_chunks i (i + batch_size)) starts) |}).
Proof.
  induction starts as [|i starts IH]; intros acc r0 w Hd.
  - exists r0. cbn. rewrite !app_nil_r, Nat.add_0_r. now destruct w.
  - cbn [for_each]. unfold mbind, M_bind. rewrite batch_body_at_once by exact Hd.
    destruct (IH (acc ++ map (fun t => to_sparse_embedding (f t))
                          (slice all_chunks i (i + batch_size)))
                (Some (map f (slice all_chunks i (i + batch_size))))
                (slept (called w embed_model (slice all_chunks i (i + batch_size))) delay)
                Hd) as [r Hr].
    exists r. unfold mbind, M_bind in Hr. rewrite Hr.
    cbn [map concat length calls trace slept called paced_trace flat_map].
    rewrite map_app, <- !app_assoc. cbn [app]. unfold paced_trace.
    replace (S (calls w) + length starts)%nat with (calls w + S (length starts))%nat by lia.
    reflexivity.
Qed.

End AtOnce.

(** X5: when the provider answers every call at once, a run makes one
    call per batch and sleeps the pacing delay after every batch, the
    last one too; the batches are consecutive, non-empty, at most
    [batch_size] long and together they are the text column. *)
Theorem paced_run (pc : Pinecone) (df : DataFrame) (text_col embed_model : string)
    (batch_size requests_per_minute : Z) (w : world) (texts : list pyval)
    (f : pyval -> Item) :
  get_column df text_col = Ok texts ->
  0 < batch_size ->
  0 < requests_per_minute < 2 ^ 1024 - 2 ^ 970 ->
  answers_at_once pc embed_model f ->
  embed_sparse pc df text_col embed_model batch_size requests_per_minute w
  = (Ok (map (fun t => to_sparse_embedding (f t)) texts),
     {| calls := calls w + length (batches_of texts batch_size);
        trace := trace w
                 ++ paced_trace embed_model (60 / inject_Z requests_per_minute)%Q
                      (batches_of texts batch_size) |})
  /\ concat (batches_of texts batch_size) = texts
  /\ Forall (fun b => (0 < length b <= Z.to_nat batch_size)%nat)
       (batches_of texts batch_size).
Proof.
  intros Hcol Hbs Hrpm Hpc.
  destruct (batches_cover texts batch_size Hbs) as [Hcat Hlen].
  split; [| split; [exact Hcat | exact Hlen]].
  destruct (pacing_delay_ok _ Hrpm) as (d & Hd & Hd0).
  assert (Hfit : fits_double requests_per_minute = true).
  { unfold fits_double. apply Z.ltb_lt. lia. }
  rewrite (rate_ok requests_per_minute ltac:(lia) Hfit) in Hd. injection Hd as <-.
  destruct (range0_covers (length texts) batch_size Hbs) as (count & Hr & _).
  rewrite (run_unfold _ _ _ _ _ _ _ _ _ _ Hcol
             (rate_ok requests_per_minute ltac:(lia) Hfit) Hr).
  destruct (for_each_at_once pc embed_model f Hpc (Z.to_nat batch_size) _ texts
              (range_from 0 count (Z.to_nat batch_size)) [] None w Hd0) as [r Hrun].
  rewrite Hrun. cbn [fst app].
  unfold batches_of, batch_starts in Hcat |- *. rewrite Hr in Hcat |- *.
  rewrite Hcat, length_map. reflexivity.
Qed.

Definition steady_client : Pinecone :=
  {| inference_embed := fun _ _ inputs _ => Ok (map item_of inputs) |}.

Lemma paced_run_witness :
  embed_sparse steady_client three_rows "chunk_text" "m" 2 5 start
  = (Ok (map (fun t => to_sparse_embedding (item_of t))
           [VStr "a"; VStr EmptyString; VStr "c"]),
     {| calls := 2;
        trace := [EmbedCall "m" [VStr "a"; VStr EmptyString]; Sleep (60 / inject_Z 5)%Q;
                  EmbedCall "m" [VStr "c"]; Sleep (60 / inject_Z 5)%Q] |})
  /\ concat (batches_of [VStr "a"; VStr EmptyString; VStr "c"] 2)
     = [VStr "a"; VStr EmptyString; VStr "c"]
  /\ Forall (fun b => (0 < length b <= 2)%nat)
       (batches_of [VStr "a"; VStr EmptyString; VStr "c"] 2).
Proof.
  apply (paced_run steady_client three_rows "chunk_text" "m" 2 5 start
           [VStr "a"; VStr EmptyString; VStr "c"] item_of).
  - reflexivity.
  - lia.
  - split; reflexivity.
  - intros n inputs. reflexivity.
Defined.

(** X6: with a negative request rate the first batch is embedded and
    the pacing sleep that follows raises ValueError: the run returns
    nothing although the provider answered. *)
Theorem negative_rate_raises_after_first_batch (pc : Pinecone) (df : DataFrame)
    (text_col embed_model : string) (batch_size requests_per_minute : Z) (w : world)
    (texts : list pyval) (f : pyval -> Item) :
  get_column df text_col = Ok texts ->
  texts <> [] ->
  0 < batch_size ->
  requests_per_minute < 0 -> fits_double requests_per_minute = true ->
  answers_at_once pc embed_model f ->
  embed_sparse pc df text_col embed_model batch_size requests_per_minute w
  = (Raise (ValueError "sleep length must be non-negative"),
     {| calls := S (calls w);
        trace := trace w ++ [EmbedCall embed_model (take (Z.to_nat batch_size) texts)] |}).
Proof.
  intros Hcol Htexts Hbs Hneg Hfit Hpc.
  destruct (range0_first (length texts) batch_size) as [rest Hr];
    [destruct texts; [congruence | cbn; lia] | exact Hbs |].
  rewrite (run_unfold _ _ _ _ _ _ _ _ _ _ Hcol
             (rate_ok requests_per_minute ltac:(lia) Hfit) Hr).
  cbn [for_each]. unfold mbind at 1. unfold M_bind at 1.
  rewrite (batch_body_sleep_raises pc embed_model f Hpc).
  - unfold called, slice. change (drop 0 texts) with texts.
    replace (0 + Z.to_nat batch_size - 0)%nat with (Z.to_nat batch_size) by lia.
    reflexivity.
  - destruct requests_per_minute as [|p|p]; try lia. reflexivity.
Qed.

Lemma negative_rate_raises_after_first_batch_witness :
  embed_sparse steady_client three_rows "chunk_text" "m" 2 (-5) start
  = (Raise (ValueError "sleep length must be non-negative"),
     {| calls := 1; trace := [EmbedCall "m" [VStr "a"; VStr EmptyString]] |}).
Proof.
  apply (negative_rate_raises_after_first_batch steady_client three_rows "chunk_text" "m"
           2 (-5) start [VStr "a"; VStr EmptyString; VStr "c"] item_of).
  - reflexivity.
  - discriminate.
  - lia.
  - lia.
  - reflexivity.
  - intros n inputs. reflexivity.
Defined.

(** X7: if every item the provider returns has as many values as
    indices, so has every record of a returned list: the placeholder
    keeps the two lists parallel. *)
Theorem records_stay_parallel (pc : Pinecone) (df : DataFrame)
    (text_col embed_model : string) (batch_size requests_per_minute : Z)
    (w w' : world) (out : list SparseEmbedding) :
  (forall n m inputs p items,
     inference_embed pc n m inputs p = Ok items -> Forall parallel_item items) ->
  embed_sparse pc df text_col embed_model batch_size requests_per_minute w = (Ok out, w') ->
  Forall parallel out.
Proof.
  intros Hitems. unfold embed_sparse, lift, mbind, M_bind, mret, M_ret.
  destruct (get_column df text_col) as [all_chunks | e]; [| discriminate].
  destruct (truediv_float_int 60 requests_per_minute) as [d | e]; [| discriminate].
  destruct (range0 (length all_chunks) batch_size) as [starts | e]; [| discriminate].
  assert (Hany : forall chunk_batch attempts delay r0 w0 r w1,
    (forall items, r0 = Some items -> Forall parallel_item items) ->
    attempt_loop pc embed_model chunk_batch attempts delay r0 w0 = (Ok r, w1) ->
    forall items, r = Some items -> Forall parallel_item items).
  { intros chunk_batch attempts. induction attempts as [|a rest IH];
      intros delay r0 w0 r w1 Hr0; cbn [attempt_loop].
    - unfold mret, M_ret. intros [= <- _]. exact Hr0.
    - unfold try_except, embed_call.
      destruct (inference_embed pc (calls w0) embed_model chunk_batch _)
        as [items0 | e] eqn:Ecall.
      + unfold mret, M_ret. intros [= <- _] items [= <-]. eapply Hitems, Ecall.
      + assert (Hs : forall w2,
          (_ ← sleep delay;
           attempt_loop pc embed_model chunk_batch rest (delay * 2)%Q r0) w2 = (Ok r, w1) ->
          forall items, r = Some items -> Forall parallel_item items).
        { intros w2. unfold mbind, M_bind, sleep.
          destruct (Qle_bool 0 delay); [| discriminate]. apply IH, Hr0. }
        unfold raise.
        repeat match goal with
               | |- context [if ?b then _ else _] => destruct b
               end; try discriminate; apply Hs. }
  assert (Hinv : forall l vars w0 vars' w1,
    for_each (batch_body pc embed_model (Z.to_nat batch_size) d all_chunks) l vars w0
    = (Ok vars', w1) ->
    Forall parallel vars.1 ->
    (forall items, vars.2 = Some items -> Forall parallel_item items) ->
    Forall parallel vars'.1).
  { induction l as [|i l IH]; intros vars w0 vars' w1; cbn [for_each].
    - unfold mret, M_ret. now intros [= <- _].
    - unfold mbind at 1. unfold M_bind at 1.
      destruct (batch_body _ _ _ _ _ vars i w0) as [[vars1 | e] w2] eqn:Eb;
        [| discriminate].
      intros Hrest Hacc Hres. revert Eb. unfold batch_body, mbind, M_bind, mret, M_ret, raise.
      destruct (attempt_loop _ _ _ _ _ _ w0) as [[[items |] | e] w3] eqn:Ea;
        try discriminate.
      unfold sleep. destruct (Qle_bool 0 d); [| discriminate]. intros [= <- _].
      pose proof (Hany _ _ _ _ _ _ _ Hres Ea items eq_refl) as Hpar.
      apply (IH _ _ _ _ Hrest); cbn [fst snd].
      + rewrite fold_left_snoc. apply Forall_app. split; [exact Hacc |].
        clear -Hpar. induction Hpar as [|item items Hi _ IHp]; cbn; constructor;
          [| exact IHp].
        unfold parallel. rewrite to_sparse_embedding_eq.
        unfold parallel_item in Hi.
        destruct (sparse_indices item) eqn:E; [reflexivity |]. exact Hi.
      + intros items0 [= <-]. exact Hpar. }
  destruct (for_each _ starts ([], None) w) as [[vars | e] w1] eqn:Ef; [| discriminate].
  intros [= <- _]. apply (Hinv _ _ _ _ _ Ef); [constructor | discriminate].
Qed.

Lemma records_stay_parallel_witness :
  Forall parallel
    [{| indices := [3]; values := [0.5%float] |};
     {| indices := [0]; values := [0.001%float] |};
     {| indices := [3]; values := [0.5%float] |}].
Proof.
  apply (records_stay_parallel steady_client three_rows "chunk_text" "m" 2 5 start
           {| calls := 2;
              trace := [EmbedCall "m" [VStr "a"; VStr EmptyString]; Sleep (60 / inject_Z 5)%Q;
                        EmbedCall "m" [VStr "c"]; Sleep (60 / inject_Z 5)%Q] |}).
  - intros n m inputs p items [= <-]. clear.
    induction inputs as [|t inputs IH]; cbn; constructor; [| exact IH].
    unfold parallel_item, item_of. destruct t as [| | | |[|c s]]; reflexivity.
  - reflexivity.
Defined.

End EmbedSparseRuns.

(** ** rag_ingest/s3_loader.py: single files, listings that go wrong *)
Module S3LoaderEdges.
Import S3Loader.

Lemma length_append (a b : string) :
  String.length (a +:+ b) = (String.length a + String.length b)%nat.
Proof.
  induction a as [|x a IH]; [reflexivity |].
  rewrite append_cons. cbn [String.length]. now rewrite IH.
Qed.

Lemma substring_after (q p : string) :
  String.substring (String.length q) (String.length p) (q +:+ p) = p.
Proof.
  induction q as [|x q IH].
  - change (EmptyString +:+ p) with p. cbn [String.length].
    induction p as [|y p IHp]; [reflexivity |].
    cbn [String.length String.substring]. now rewrite IHp.
  - rewrite append_cons. cbn [String.length String.substring]. exact IH.
Qed.

Lemma substring_split (s : string) : forall k,
  (k <= String.length s)%nat ->
  s = String.substring 0 k s +:+ String.substring k (String.length s - k) s.
Proof.
  induction s as [|x s IH]; intros k Hk.
  - cbn in Hk. assert (k = 0%nat) as -> by lia. reflexivity.
  - destruct k as [|k].
    + cbn [String.length Nat.sub]. change (String.substring 0 0 (String x s)) with EmptyString.
      change (EmptyString +:+ ?t) with t.
      cbn [String.substring]. f_equal.
      clear. induction s as [|y s IHs]; [reflexivity |].
      cbn [String.length String.substring]. now rewrite <- IHs.
    + cbn [String.length] in Hk |- *. cbn [String.substring Nat.sub].
      rewrite append_cons. f_equal. apply IH. lia.
Qed.

(** [s.endswith(p)] holds exactly when [s] is some stem followed by
    [p]. *)
Lemma endswith_spec (s p : string) :
  endswith s p = true <-> exists stem, s = stem +:+ p.
Proof.
  unfold endswith. rewrite andb_true_iff, Nat.leb_le, String.eqb_eq. split.
  - intros [Hle Hsub].
    exists (String.substring 0 (String.length s - String.length p) s).
    pose proof (substring_split s (String.length s - String.length p) ltac:(lia)) as Hs.
    replace (String.length s - (String.length s - String.length p))%nat
      with (String.length p) in Hs by lia.
    rewrite Hsub in Hs. exact Hs.
  - intros [stem ->]. rewrite length_append. split; [lia |].
    replace (String.length stem + String.length p - String.length p)%nat
      with (String.length stem) by lia.
    apply substring_after.
Qed.

Lemma parquet_keys_elem (keys : list string) (key : string) :
  key ∈ parquet_keys keys <-> key ∈ keys /\ exists stem, key = stem +:+ ".parquet".
Proof.
  unfold parquet_keys. rewrite !list_elem_of_In, filter_In, endswith_spec. reflexivity.
Qed.

Lemma parquet_keys_sublist (keys : list string) : sublist (parquet_keys keys) keys.
Proof.
  induction keys as [|key keys IH]; cbn; [constructor |].
  destruct (endswith key ".parquet"); [now apply sublist_skip | now apply sublist_cons].
Qed.

Lemma parquet_keys_count (keys : list string) (key : string) :
  count_occ String.string_dec (parquet_keys keys) key
  = if endswith key ".parquet" then count_occ String.string_dec keys key else 0%nat.
Proof.
  unfold parquet_keys. induction keys as [|k keys IH]; cbn.
  - now destruct (endswith key ".parquet").
  - destruct (endswith k ".parquet") eqn:Hk; cbn;
      destruct (String.string_dec k key) as [-> | Hne]; rewrite IH.
    + now rewrite Hk.
    + reflexivity.
    + now rewrite Hk.
    + reflexivity.
Qed.

Lemma list_params_falsy_token bucket prefix token :
  truthy token = false ->
  list_params bucket prefix token = list_params bucket prefix None.
Proof. intros H. unfold list_params. rewrite H. reflexivity. Qed.

Lemma map_result_first_failure {A B} (f : A -> result B) (l1 l2 : list A) (a : A)
    (e : exn) :
  Forall (fun x => exists b, f x = Ok b) l1 ->
  f a = Raise e ->
  map_result f (l1 ++ a :: l2) = Raise e.
Proof.
  intros Hok Ha. induction Hok as [|x l1 [b Hb] _ IH]; cbn.
  - now rewrite Ha.
  - now rewrite Hb, IH.
Qed.

Section Edges.
Variable expanduser : string -> string.
Variable glob_recursive : string -> list string.
Variable read_parquet : source -> result DataFrame.
Variable boto3_client : string -> S3Client.
Variable stack_mismatched : list DataFrame -> result DataFrame.

Local Abbreviation load :=
  (load_parquet_from_s3 expanduser glob_recursive read_parquet boto3_client
     stack_mismatched).
Local Abbreviation concat_vertical := (Polars.concat_vertical stack_mismatched).

(** X8: with a non-empty [single_key] the loader reads exactly one
    file and returns what reading it gives, failure included: locally
    the file at location, prefix and key joined; remotely the object
    [single_key] of the bucket, the prefix playing no part.  An empty
    [single_key] is Mode B. *)
Theorem mode_a_single_file (fuel : nat) (bucket : string) (prefix : option string)
    (key region : string) :
  key <> EmptyString ->
  (is_local bucket = true ->
   load fuel bucket prefix (Some key) region
   = Some (read_parquet (Path (path_join (local_base expanduser bucket prefix) key))))
  /\ (is_local bucket = false ->
      load fuel bucket prefix (Some key) region
      = Some (rbind (get_object (boto3_client region) bucket key)
                (fun body => read_parquet (Bytes body))))
  /\ load fuel bucket prefix (Some EmptyString) region
     = load fuel bucket prefix None region.
Proof.
  intros Hkey.
  assert (Ht : truthy (Some key) = true).
  { cbn. apply negb_true_iff, String.eqb_neq, Hkey. }
  split_and!.
  - intros Hl. unfold load_parquet_from_s3, local_base. rewrite Hl, Ht. reflexivity.
  - intros Hl. unfold load_parquet_from_s3. rewrite Hl, Ht. reflexivity.
  - reflexivity.
Qed.

(** X9: when the store answers a later page without [Contents], the
    loader raises FileNotFoundError whatever the earlier pages held:
    the keys already collected are dropped. *)
Theorem missing_contents_drops_keys (fuel : nat) (bucket : string)
    (prefix : option string) (region : string) (pages : list (list string)) :
  is_local bucket = false ->
  walk (boto3_client region) bucket prefix None pages false ->
  (S (length pages) <= fuel)%nat ->
  load fuel bucket prefix None region
  = Some (Raise (FileNotFoundError
                   ("No parquet files found in S3://" +:+ bucket +:+ "/" +:+ fmt prefix))).
Proof.
  intros Hl Hw Hfuel.
  now rewrite (load_remote_mode_b _ _ _ _ _ _ _ _ _ _ false Hl Hw Hfuel).
Qed.

(** X10: when the first page is truncated and carries no continuation
    token (the field absent or empty), the next request is the first
    request again: the loop never ends, whatever the number of
    iterations allowed. *)
Theorem truncated_without_token_never_ends (bucket : string) (prefix : option string)
    (region : string) (response : ListResponse) (contents : list string) :
  is_local bucket = false ->
  list_objects_v2 (boto3_client region) (list_params bucket prefix None) = Ok response ->
  Contents response = Some contents ->
  default false (IsTruncated response) = true ->
  truthy (NextContinuationToken response) = false ->
  forall fuel, load fuel bucket prefix None region = None.
Proof.
  intros Hl Hr Hc Ht Htok fuel.
  assert (Hloop : forall fuel token acc,
    truthy token = false ->
    list_loop (boto3_client region) bucket prefix fuel token acc = None).
  { clear fuel. induction fuel as [|fuel IH]; intros token acc Hf; [reflexivity |].
    cbn [list_loop]. rewrite (list_params_falsy_token _ _ _ Hf), Hr, Hc, Ht.
    apply IH, Htok. }
  unfold load_parquet_from_s3. rewrite Hl. cbn [truthy].
  now rewrite Hloop.
Qed.

(** X11: the keys the remote Mode B keeps are exactly the listed keys
    that are some stem followed by ".parquet", each as often and in
    the order the store listed it: the kept list is the listing with
    the other keys struck out, nothing merged and nothing reordered,
    and a key ending in ".parquet" occurs in it as many times as in
    the listing. *)
Theorem listed_keys_kept (bucket : string) (prefix token : option string)
    (region : string) (pages : list (list string)) (fuel : nat) :
  walk (boto3_client region) bucket prefix token pages true ->
  (length pages <= fuel)%nat ->
  exists keys,
    list_loop (boto3_client region) bucket prefix fuel token [] = Some (Ok keys)
    /\ keys = List.filter (fun key => endswith key ".parquet") (concat pages)
    /\ (forall key,
          count_occ String.string_dec keys key
          = if endswith key ".parquet"
            then count_occ String.string_dec (concat pages) key
            else 0%nat)
    /\ (forall key, key ∈ keys <->
          key ∈ concat pages /\ exists stem, key = stem +:+ ".parquet")
    /\ sublist keys (concat pages).
Proof.
  intros Hw Hfuel. exists (parquet_keys (concat pages)). split_and!.
  - exact (list_loop_walk _ _ _ _ _ _ Hw fuel [] Hfuel).
  - reflexivity.
  - apply parquet_keys_count.
  - apply parquet_keys_elem.
  - apply parquet_keys_sublist.
Qed.

(** X12: the loader raises the error of the first file that fails to
    read, in reading order (sorted paths locally, listing order
    remotely); the files after it are not what is reported. *)
Theorem first_read_failure_is_raised (fuel : nat) (bucket : string)
    (prefix : option string) (region : string) (before after : list string)
    (bad : string) (e : exn) :
  (is_local bucket = true ->
   sorted (glob_recursive (local_pattern expanduser bucket prefix)) = before ++ bad :: after ->
   Forall (fun f => exists df, read_parquet (Path f) = Ok df) before ->
   read_parquet (Path bad) = Raise e ->
   load fuel bucket prefix None region = Some (Raise e))
  /\ (forall pages,
        is_local bucket = false ->
        walk (boto3_client region) bucket prefix None pages true ->
        (length pages <= fuel)%nat ->
        parquet_keys (concat pages) = before ++ bad :: after ->
        Forall (fun k => exists df, fetch read_parquet (boto3_client region) bucket k = Ok df)
          before ->
        fetch read_parquet (boto3_client region) bucket bad = Raise e ->
        load fuel bucket prefix None region = Some (Raise e)).
Proof.
  split.
  - intros Hl Hs Hok Hbad. rewrite load_local_mode_b by exact Hl.
    destruct (glob_recursive _) as [|f0 files] eqn:Eg.
    + destruct before; discriminate Hs.
    + rewrite Hs, (map_result_first_failure _ _ _ _ _ Hok Hbad). reflexivity.
  - intros pages Hl Hw Hfuel Hk Hok Hbad.
    rewrite (load_remote_mode_b _ _ _ _ _ _ _ _ _ _ true Hl Hw Hfuel).
    pose proof (map_result_first_failure _ before after bad e Hok Hbad) as Hm.
    rewrite <- Hk in Hm.
    destruct (parquet_keys (concat pages)) as [|k0 keys];
      [destruct before; discriminate Hk |].
    now rewrite Hm.
Qed.

(** X13: a prefix that begins with "/" replaces the local location:
    the files are looked for under the prefix alone. *)
Theorem absolute_prefix_replaces_location (fuel : nat) (bucket p region : string) :
  is_local bucket = true ->
  startswith p "/" = true ->
  local_base expanduser bucket (Some p) = p
  /\ load fuel bucket (Some p) None region
     = match glob_recursive (path_join (path_join p "**") "*.parquet") with
       | [] => Some (Raise (FileNotFoundError ("No parquet files found in " +:+ p)))
       | files =>
           Some (rbind (map_result (fun f => read_parquet (Path f)) (sorted files))
                   concat_vertical)
       end.
Proof.
  intros Hl Hp.
  assert (Hbase : local_base expanduser bucket (Some p) = p).
  { unfold local_base, path_join. cbn [fmt truthy].
    destruct p as [|c p]; [discriminate Hp |]. cbn [String.eqb negb]. now rewrite Hp. }
  split; [exact Hbase |].
  rewrite load_local_mode_b by exact Hl. unfold local_pattern. now rewrite Hbase.
Qed.

End Edges.

(** X14: locally the result does not depend on the order in which the
    glob enumerates the files: two enumerations of the same files give
    the same table or the same error. *)
Theorem local_order_is_canonical (expanduser : string -> string)
    (glob1 glob2 : string -> list string) (read_parquet : source -> result DataFrame)
    (boto3_client : string -> S3Client)
    (stack_mismatched : list DataFrame -> result DataFrame) (fuel : nat) (bucket : string)
    (prefix : option string) (region : string) :
  is_local bucket = true ->
  Permutation (glob1 (local_pattern expanduser bucket prefix))
    (glob2 (local_pattern expanduser bucket prefix)) ->
  load_parquet_from_s3 expanduser glob1 read_parquet boto3_client stack_mismatched fuel
    bucket prefix None region
  = load_parquet_from_s3 expanduser glob2 read_parquet boto3_client stack_mismatched fuel
      bucket prefix None region.
Proof.
  intros Hl Hperm. rewrite !load_local_mode_b by exact Hl.
  assert (Hs : sorted (glob1 (local_pattern expanduser bucket prefix))
               = sorted (glob2 (local_pattern expanduser bucket prefix))).
  { unfold sorted. apply (StronglySorted_unique String.le).
    - apply StronglySorted_merge_sort; apply _.
    - apply StronglySorted_merge_sort; apply _.
    - now rewrite !merge_sort_Permutation. }
  destruct (glob1 _) as [|f1 l1] eqn:E1, (glob2 _) as [|f2 l2] eqn:E2.
  - reflexivity.
  - apply Permutation_nil_l in Hperm. discriminate.
  - apply Permutation_nil_r in Hperm. discriminate.
  - now rewrite Hs.
Qed.

(** *** Sample stores *)

(** A store whose second page has no [Contents]. *)
Definition fading_client : S3Client :=
  {| list_objects_v2 := fun p =>
       match ContinuationToken p with
       | None =>
           Ok {| Contents := Some ["k.parquet"];
                 IsTruncated := Some true;
                 NextContinuationToken := Some "t1" |}
       | Some _ =>
           Ok {| Contents := None; IsTruncated := None; NextContinuationToken := None |}
       end;
     get_object := fun _ key => Ok key |}.

(** A store that says truncated and hands over no token. *)
Definition looping_client : S3Client :=
  {| list_objects_v2 := fun _ =>
       Ok {| Contents := Some ["k.parquet"];
             IsTruncated := Some true;
             NextContinuationToken := None |};
     get_object := fun _ key => Ok key |}.

(** A reader that cannot read [./data/b.parquet]. *)
Definition picky_read (src : source) : result DataFrame :=
  match src with
  | Path p =>
      if String.eqb p "./data/b.parquet" then Raise (OtherException "ComputeError")
      else Ok (one_row p)
  | Bytes body => Ok (one_row body)
  end.

Definition reversed_glob (pattern : string) : list string := rev (demo_glob pattern).

Lemma mode_a_single_file_witness :
  load_parquet_from_s3 (fun p => p) demo_glob demo_read (fun _ => demo_client) demo_stack
    0%nat "./data" (Some "a") (Some "x.parquet") "us-east-1"
  = Some (Ok (one_row "./data/a/x.parquet"))
  /\ load_parquet_from_s3 (fun p => p) demo_glob demo_read (fun _ => demo_client) demo_stack
       0%nat "corpus" (Some "a") (Some "k1.parquet") "us-east-1"
     = Some (Ok (one_row "k1.parquet")).
Proof.
  split.
  - apply (proj1 (mode_a_single_file (fun p => p) demo_glob demo_read (fun _ => demo_client)
      demo_stack
                    0%nat "./data" (Some "a") "x.parquet" "us-east-1" ltac:(discriminate))).
    reflexivity.
  - apply (proj1 (proj2 (mode_a_single_file (fun p => p) demo_glob demo_read
                           (fun _ => demo_client) demo_stack 0%nat "corpus" (Some "a") "k1.parquet"
                           "us-east-1" ltac:(discriminate)))).
    reflexivity.
Defined.

Lemma missing_contents_drops_keys_witness :
  load_parquet_from_s3 (fun p => p) demo_glob demo_read (fun _ => fading_client) demo_stack
    2%nat "corpus" None None "us-east-1"
  = Some (Raise (FileNotFoundError "No parquet files found in S3://corpus/None")).
Proof.
  apply (missing_contents_drops_keys (fun p => p) demo_glob demo_read (fun _ => fading_client)
      demo_stack
           2%nat "corpus" None "us-east-1" [["k.parquet"]]).
  - reflexivity.
  - eapply walk_next; [reflexivity | reflexivity | reflexivity |].
    eapply walk_no_contents; reflexivity.
  - cbn. lia.
Defined.

Lemma truncated_without_token_never_ends_witness :
  load_parquet_from_s3 (fun p => p) demo_glob demo_read (fun _ => looping_client) demo_stack
    1000%nat "corpus" None None "us-east-1"
  = None.
Proof.
  apply (truncated_without_token_never_ends (fun p => p) demo_glob demo_read
           (fun _ => looping_client) demo_stack "corpus" None "us-east-1"
           {| Contents := Some ["k.parquet"];
              IsTruncated := Some true;
              NextContinuationToken := None |}
           ["k.parquet"]); reflexivity.
Defined.

Lemma listed_keys_kept_witness :
  exists keys,
    list_loop echo_client "corpus" None 2%nat None [] = Some (Ok keys)
    /\ keys = ["k.parquet"; "j.parquet"; "k.parquet"]
    /\ count_occ String.string_dec keys "k.parquet" = 2%nat
    /\ count_occ String.string_dec keys "notes.txt" = 0%nat.
Proof.
  destruct (listed_keys_kept (fun _ => echo_client) "corpus" None None "us-east-1"
              [["k.parquet"; "notes.txt"; "j.parquet"]; ["k.parquet"; "notes.txt"]] 2%nat)
    as (keys & Hrun & Hkeys & Hcount & _).
  - eapply walk_next; [reflexivity | reflexivity | reflexivity |].
    eapply walk_last; reflexivity.
  - cbn. lia.
  - exists keys. split_and!.
    + exact Hrun.
    + rewrite Hkeys. reflexivity.
    + rewrite Hcount. reflexivity.
    + rewrite Hcount. reflexivity.
Defined.

Lemma first_read_failure_is_raised_witness :
  load_parquet_from_s3 (fun p => p) demo_glob picky_read (fun _ => demo_client) demo_stack
    0%nat "./data" None None "us-east-1"
  = Some (Raise (OtherException "ComputeError")).
Proof.
  apply (proj1 (first_read_failure_is_raised (fun p => p) demo_glob picky_read
                  (fun _ => demo_client) demo_stack 0%nat "./data" None "us-east-1"
                  ["./data/a/x.parquet"] [] "./data/b.parquet"
                  (OtherException "ComputeError"))).
  - reflexivity.
  - reflexivity.
  - constructor; [| constructor]. eexists. reflexivity.
  - reflexivity.
Defined.

Lemma absolute_prefix_replaces_location_witness :
  load_parquet_from_s3 (fun p => p) demo_glob demo_read (fun _ => demo_client) demo_stack
    0%nat "./data" (Some "/srv/tables") None "us-east-1"
  = Some (Raise (FileNotFoundError "No parquet files found in /srv/tables")).
Proof.
  destruct (absolute_prefix_replaces_location (fun p => p) demo_glob demo_read
              (fun _ => demo_client) demo_stack 0%nat "./data" "/srv/tables" "us-east-1")
    as [_ H]; [reflexivity | reflexivity |].
  exact H.
Defined.

Lemma local_order_is_canonical_witness :
  load_parquet_from_s3 (fun p => p) demo_glob demo_read (fun _ => demo_client) demo_stack
    0%nat "./data" None None "us-east-1"
  = load_parquet_from_s3 (fun p => p) reversed_glob demo_read (fun _ => demo_client) demo_stack
      0%nat "./data" None None "us-east-1".
Proof.
  apply (local_order_is_canonical (fun p => p) demo_glob reversed_glob demo_read
           (fun _ => demo_client) demo_stack 0%nat "./data" None "us-east-1").
  - reflexivity.
  - apply Permutation_rev.
Defined.

End S3LoaderEdges.

(** ** rag-query/config.py: the output path *)
Module RagConfigPaths.
Import RagConfig.

Section OutputPath.
(** The file system, and [os.makedirs(name, exist_ok=True)] on it. *)
Variable filesystem : Type.
Variable makedirs_exist_ok : string -> filesystem -> result unit * filesystem.

(** [Config.get_output_path(filename)]. *)
Definition get_output_path (cls : Config) (filename : string) (fs : filesystem)
    : result string * filesystem :=
  match makedirs_exist_ok (OUTPUT_DIR cls) fs with
  | (Ok _, fs') => (Ok (S3Loader.path_join (OUTPUT_DIR cls) filename), fs')
  | (Raise e, fs') => (Raise e, fs')
  end.

(** X15: once the output directory is there, a file name that does not
    begin with "/" is placed under "outputs/"; a file name that begins
    with "/" is returned as it is, outside the output directory.  The
    directory is made first either way, and when that fails no path is
    returned. *)
Theorem output_path_of_filename (env : environ) (filename : string)
    (fs fs' : filesystem) (made : result unit) :
  makedirs_exist_ok "outputs" fs = (made, fs') ->
  get_output_path (Config_of env) filename fs
  = (match made with
     | Ok _ =>
         Ok (if startswith filename "/" then filename else "outputs/" +:+ filename)
     | Raise e => Raise e
     end, fs').
Proof.
  intros Hmk. unfold get_output_path. cbn [OUTPUT_DIR Config_of]. rewrite Hmk.
  destruct made as [[] | e]; [| reflexivity].
  unfold S3Loader.path_join. destruct (startswith filename "/"); reflexivity.
Qed.

End OutputPath.

(** A file system as the set of its directories. *)
Definition mkdir_in_set (name : string) (dirs : gset string)
    : result unit * gset string :=
  (Ok tt, {[ name ]} ∪ dirs).

Lemma output_path_of_filename_witness :
  get_output_path (gset string) mkdir_in_set (Config_of ∅) "/etc/report.csv" ∅
  = (Ok "/etc/report.csv", {[ "outputs" ]} ∪ ∅).
Proof.
  apply (output_path_of_filename (gset string) mkdir_in_set ∅ "/etc/report.csv"
           ∅ ({[ "outputs" ]} ∪ ∅) (Ok tt)).
  reflexivity.
Defined.

End RagConfigPaths.

(** ** rag-query/llm_generation.py: the direct answer, and more on the
       context string *)
Module LlmGenerationMore.
Import RagConfig LlmGeneration.

Definition standard_system_prompt : string :=
  nl +:+
  "    You are a highly intelligent program evaluation analyst with a scientific background. Your goal is to help a " +:+ nl +:+
  "    user understand the scientific research your organization has funded." +:+ nl +:+
  "    You will be given the user's original question and a list of 'Retrieved Chunks' from the organization's database." +:+ nl +:+
  nl +:+
  "    Your task is to generate a natural language response. You MUST follow these rules:" +:+ nl +:+
  "    1. Base your answer *ONLY* on the information inside the " +:+ dquote +:+
  "Retrieved Chunks" +:+ dquote +:+ ". Do not use any outside knowledge." +:+ nl +:+
  "    Do your best to answer the question based solely on the information provided. Let the user know if you need further" +:+ nl +:+
  "    information to provide a better answer." +:+ nl +:+
  "  ".

Definition standard_user_prompt (query_text context_string : string) : string :=
  nl +:+
  "    **User's Question:**" +:+ nl +:+
  "    " +:+ query_text +:+ nl +:+
  nl +:+
  "    **Retrieved Chunks:**" +:+ nl +:+
  "    " +:+ context_string +:+ nl +:+
  "  ".

(** The arguments of the call at lines 94-99. *)
Definition standard_request (cfg : Config) (query_text context_string : string)
    : MessageRequest :=
  let system_prompt := standard_system_prompt in
  let user_prompt := standard_user_prompt query_text context_string in
  {| model := CLAUDE_MODEL cfg;
     max_tokens := MAX_NEW_TOKENS cfg;
     system := system_prompt;
     messages := [("user", user_prompt)] |}.

(** [message.content[0].text]. *)
Definition first_text (message : Message) : result string :=
  match content message with
  | [] => Raise IndexError
  | block :: _ => Ok (text block)
  end.

Section Answers.
Variable messages_create : string -> MessageRequest -> result Message.

Definition generate_llm_response (cfg : Config) (query_text context_string : string)
    : result string :=
  rbind (messages_create (ANTHROPIC_API_KEY cfg)
           (standard_request cfg query_text context_string))
    first_text.

(** X16: the direct answer is the text of the first segment of the
    provider's reply, whatever segments follow; a reply without
    segments raises IndexError, and a failure of the provider is
    raised unchanged.  The one message sent holds the question and the
    context as they are, in that order, between fixed texts. *)
Theorem direct_answer_is_first_segment (cfg : Config) (query_text context_string : string) :
  (forall message,
     messages_create (ANTHROPIC_API_KEY cfg)
       (standard_request cfg query_text context_string) = Ok message ->
     generate_llm_response cfg query_text context_string
     = match content message with
       | [] => Raise IndexError
       | block :: _ => Ok (text block)
       end)
  /\ (forall e,
        messages_create (ANTHROPIC_API_KEY cfg)
          (standard_request cfg query_text context_string) = Raise e ->
        generate_llm_response cfg query_text context_string = Raise e)
  /\ (exists before between after,
        forall q c,
          messages (standard_request cfg q c)
          = [("user", before +:+ q +:+ between +:+ c +:+ after)]).
Proof.
  split_and!.
  - intros message H. unfold generate_llm_response. now rewrite H.
  - intros e H. unfold generate_llm_response. now rewrite H.
  - exists (nl +:+ "    **User's Question:**" +:+ nl +:+ "    "),
      (nl +:+ nl +:+ "    **Retrieved Chunks:**" +:+ nl +:+ "    "),
      (nl +:+ "  ").
    intros q c. cbn [standard_request messages]. unfold standard_user_prompt.
    rewrite !append_assoc. reflexivity.
Qed.

(** X17: the filter-only answer does not depend on the query text: the
    query is not part of what is sent.  A reply without segments raises
    IndexError and a failure of the provider is raised unchanged, so
    the prefix is never returned on its own. *)
Theorem filter_only_ignores_query (cfg : Config) (context_string : string)
    (num_total_chunks : Z) :
  (forall q1 q2,
     generate_llm_response_filter_only_search messages_create cfg q1 context_string
       num_total_chunks
     = generate_llm_response_filter_only_search messages_create cfg q2 context_string
         num_total_chunks)
  /\ (forall q message,
        messages_create (ANTHROPIC_API_KEY cfg) (filter_only_request cfg context_string)
        = Ok message ->
        content message = [] ->
        generate_llm_response_filter_only_search messages_create cfg q context_string
          num_total_chunks = Raise IndexError)
  /\ (forall q e,
        messages_create (ANTHROPIC_API_KEY cfg) (filter_only_request cfg context_string)
        = Raise e ->
        generate_llm_response_filter_only_search messages_create cfg q context_string
          num_total_chunks = Raise e).
Proof.
  split_and!.
  - reflexivity.
  - intros q message H Hc. unfold generate_llm_response_filter_only_search.
    now rewrite H; cbn [rbind]; rewrite Hc.
  - intros q e H. unfold generate_llm_response_filter_only_search. now rewrite H.
Qed.

End Answers.

(** *** More on the context string *)

Lemma concat_strings_app (b1 b2 : list string) :
  String.concat EmptyString (b1 ++ b2)
  = String.concat EmptyString b1 +:+ String.concat EmptyString b2.
Proof.
  induction b1 as [|x b1 IH]; [reflexivity |].
  assert (Hc : forall y l, String.concat EmptyString (y :: l)
                           = y +:+ String.concat EmptyString l).
  { intros y [|z l]; cbn [String.concat]; [now rewrite append_nil_r | reflexivity]. }
  cbn [app]. rewrite !Hc, IH, append_assoc. reflexivity.
Qed.

Section ContextFacts.
Variable format_float_4f : float -> string.
Variable str_float : float -> string.

Local Abbreviation build := (build_context_string format_float_4f str_float).
Local Abbreviation block := (block format_float_4f str_float).
Local Abbreviation blocks := (blocks format_float_4f str_float).
Local Abbreviation fstr_4f := (fstr_4f format_float_4f).

(** The score of a match can be printed with four decimals. *)
Definition printable (m : Match) : Prop :=
  exists s, fstr_4f (default (VInt 0) (score m)) = Ok s.

Lemma blocks_app (l1 l2 : list Match) : forall i,
  blocks i (l1 ++ l2)
  = rbind (blocks i l1) (fun b1 =>
      rbind (blocks (i + length l1) l2) (fun b2 => Ok (b1 ++ b2))).
Proof.
  induction l1 as [|m l1 IH]; intros i.
  - cbn [app LlmGeneration.blocks rbind length]. rewrite Nat.add_0_r.
    destruct (blocks i l2); reflexivity.
  - cbn [app LlmGeneration.blocks length].
    destruct (block i m) as [b | e]; [| reflexivity]. cbn [rbind].
    rewrite IH. replace (i + S (length l1))%nat with (S i + length l1)%nat by lia.
    destruct (blocks (S i) l1) as [b1 | e]; [| reflexivity]. cbn [rbind].
    destruct (blocks (S i + length l1) l2); reflexivity.
Qed.

Lemma block_printable (i : nat) (m : Match) :
  printable m -> exists b, block i m = Ok b.
Proof.
  intros [s Hs]. unfold LlmGeneration.block.
  rewrite loop_body_closed_form, Hs. eexists. reflexivity.
Qed.

Lemma blocks_printable (l : list Match) : forall i,
  Forall printable l -> exists bs, blocks i l = Ok bs.
Proof.
  induction l as [|m l IH]; intros i Hl; [eexists; reflexivity |].
  inversion Hl as [| ? ? Hm Hrest]; subst. cbn [LlmGeneration.blocks].
  destruct (block_printable i m Hm) as [b ->].
  destruct (IH (S i) Hrest) as [bs ->]. eexists. reflexivity.
Qed.

Lemma slice_to_take {A} (l : list A) (k : Z) : exists n, slice_to l k = take n l.
Proof. unfold slice_to. destruct (0 <=? k); eexists; reflexivity. Qed.

(** X18: with no limit, the context of a list continued by more
    matches is the context of the list followed by the blocks of the
    further matches, numbered on from where the list ends. *)
Theorem context_of_appended_matches (l1 l2 : list Match) :
  l1 <> [] ->
  build (l1 ++ l2) None
  = rbind (build l1 None) (fun s1 =>
      rbind (blocks (length l1) l2) (fun b2 =>
        Ok (s1 +:+ String.concat EmptyString b2))).
Proof.
  intros Hne.
  assert (Hne' : l1 ++ l2 <> []) by (destruct l1; [congruence | discriminate]).
  rewrite (build_nonempty _ _ (l1 ++ l2) None Hne'), (build_nonempty _ _ l1 None Hne).
  rewrite blocks_app. cbn [Nat.add].
  destruct (blocks 0 l1) as [b1 | e]; [| reflexivity]. cbn [rbind].
  destruct (blocks (length l1) l2) as [b2 | e]; [| reflexivity]. cbn [rbind].
  now rewrite concat_strings_app.
Qed.

(** X19: a limit that is not below the number of matches changes
    nothing: the output is the one with no limit. *)
Theorem limit_beyond_length (matches : list Match) (k : Z) :
  Z.of_nat (length matches) <= k ->
  build matches (Some k) = build matches None.
Proof.
  intros Hk. destruct matches as [|m rest] eqn:E; [reflexivity |].
  rewrite <- E in *. assert (Hne : matches <> []) by (rewrite E; discriminate).
  rewrite !build_nonempty by exact Hne. unfold slice_to.
  destruct (Z.leb_spec 0 k); [| lia]. rewrite take_ge by lia. reflexivity.
Qed.

Lemma blocks_of_selection (matches : list Match) (n : nat) (bs : list string) :
  blocks 0 matches = Ok bs ->
  blocks 0 (take n matches) = Ok (take (length (take n matches)) bs)
  /\ bs = take (length (take n matches)) bs ++ drop (length (take n matches)) bs.
Proof.
  intros Hb. split; [| now rewrite take_drop].
  rewrite <- (take_drop n matches) in Hb at 1. rewrite blocks_app in Hb.
  destruct (blocks 0 (take n matches)) as [b1 | e] eqn:E1; [| discriminate].
  cbn [rbind] in Hb.
  destruct (blocks _ (drop n matches)) as [b2 | e]; [| discriminate].
  cbn [rbind] in Hb. injection Hb as <-.
  destruct (blocks_headers _ _ _ _ _ E1) as [<- _].
  now rewrite take_app_length.
Qed.

(** X20: whenever the matches can all be rendered, so can any limited
    selection of them, and a limit only cuts the text after a block:
    the full output is the blocks [bs] of all matches joined, one per
    match; the limited output is the first [n] of these very blocks
    joined, [n] the number of matches selected; what is cut off is the
    other blocks joined; so the limited output is the beginning of the
    full output. *)
Theorem limited_output_is_a_prefix (matches : list Match) (k : Z) (full : string) :
  matches <> [] ->
  build matches None = Ok full ->
  exists (bs : list string) (short rest : string),
    blocks 0 matches = Ok bs
    /\ length bs = length matches
    /\ full = String.concat EmptyString bs
    /\ blocks 0 (slice_to matches k) = Ok (take (length (slice_to matches k)) bs)
    /\ build matches (Some k) = Ok short
    /\ short = String.concat EmptyString (take (length (slice_to matches k)) bs)
    /\ rest = String.concat EmptyString (drop (length (slice_to matches k)) bs)
    /\ full = short +:+ rest.
Proof.
  intros Hne Hfull. destruct (slice_to_take matches k) as [n Hn].
  rewrite build_nonempty in Hfull |- * by exact Hne. rewrite Hn.
  destruct (blocks 0 matches) as [bs | e] eqn:Eb; [| discriminate].
  cbn [rbind] in Hfull. injection Hfull as <-.
  destruct (blocks_of_selection matches n bs Eb) as [Hsel Hsplit].
  destruct (blocks_headers _ _ _ _ _ Eb) as [Hlen _].
  exists bs. eexists _, _. split_and!; try reflexivity.
  - exact Hlen.
  - exact Hsel.
  - now rewrite Hsel.
  - rewrite <- concat_strings_app. now rewrite <- Hsplit.
Qed.

Lemma concat_strings_cons (b : string) (bs : list string) :
  String.concat EmptyString (b :: bs) = b +:+ String.concat EmptyString bs.
Proof. destruct bs; cbn [String.concat]; [now rewrite append_nil_r | reflexivity]. Qed.

Lemma nonempty_output_shape (matches : list Match) (max_chunks : option Z) (out : string) :
  matches <> [] ->
  build matches max_chunks = Ok out ->
  out = EmptyString \/ exists rest, out = "[Chunk 1]" +:+ nl +:+ rest.
Proof.
  intros Hne H. rewrite build_nonempty in H by exact Hne.
  destruct (blocks 0 _) as [bs | e] eqn:Eb; [| discriminate]. cbn [rbind] in H.
  injection H as <-. destruct bs as [|b bs]; [now left | right].
  destruct (blocks_headers _ _ _ _ _ Eb) as [_ Hh].
  destruct (Hh 0%nat b eq_refl) as [tail ->].
  exists (tail +:+ String.concat EmptyString bs).
  rewrite concat_strings_cons.
  change (str_of_int (Z.of_nat (0 + 0) + 1)) with "1".
  rewrite !append_assoc. reflexivity.
Qed.

(** X21: the builder returns "No documents were retrieved." for the
    empty list only: on a non-empty list its output, when it returns
    one, is empty or begins with "[Chunk 1]" and a line break. *)
Theorem no_documents_only_when_empty (matches : list Match) (max_chunks : option Z) :
  (build matches max_chunks = Ok "No documents were retrieved." <-> matches = [])
  /\ (forall out,
        matches <> [] ->
        build matches max_chunks = Ok out ->
        out = EmptyString \/ exists rest, out = "[Chunk 1]" +:+ nl +:+ rest).
Proof.
  split; [split |].
  - intros H. destruct matches as [|m rest] eqn:E; [reflexivity |]. exfalso.
    rewrite <- E in H.
    destruct (nonempty_output_shape matches max_chunks _
                ltac:(rewrite E; discriminate) H) as [H0 | [tail H1]].
    + discriminate H0.
    + rewrite !append_cons in H1. discriminate H1.
  - intros ->. reflexivity.
  - intros out. apply nonempty_output_shape.
Qed.

(** X22: a match whose score is a string makes the builder raise
    ValueError when the matches before it can be rendered and it lies
    within the limit; cut off by the limit, it does no harm. *)
Theorem string_score_raises (before after : list Match) (m : Match) (s : string) :
  before <> [] ->
  Forall printable before ->
  score m = Some (VStr s) ->
  build (before ++ m :: after) None
  = Raise (ValueError "Unknown format code 'f' for object of type 'str'")
  /\ build (before ++ m :: after) (Some (Z.of_nat (length before)))
     = build before None
  /\ exists out, build before None = Ok out.
Proof.
  intros Hne Hok Hs.
  assert (Hne' : before ++ m :: after <> []) by (destruct before; discriminate).
  destruct (blocks_printable before 0 Hok) as [b1 Hb1].
  assert (Hbad : forall i, block i m
                 = Raise (ValueError "Unknown format code 'f' for object of type 'str'")).
  { intros i. unfold LlmGeneration.block. rewrite loop_body_closed_form, Hs. reflexivity. }
  split_and!.
  - rewrite build_nonempty by exact Hne'. rewrite blocks_app, Hb1. cbn [rbind].
    cbn [LlmGeneration.blocks]. now rewrite Hbad.
  - rewrite !build_nonempty by assumption. unfold slice_to.
    destruct (Z.leb_spec 0 (Z.of_nat (length before))); [| lia].
    rewrite Nat2Z.id, take_app_length. reflexivity.
  - rewrite build_nonempty by exact Hne. rewrite Hb1. eexists. reflexivity.
Qed.

End ContextFacts.

Lemma context_of_appended_matches_witness :
  build_context_string sample_4f sample_str (take 2 five_chunks ++ drop 2 five_chunks) None
  = rbind (build_context_string sample_4f sample_str (take 2 five_chunks) None) (fun s1 =>
      rbind (blocks sample_4f sample_str 2 (drop 2 five_chunks)) (fun b2 =>
        Ok (s1 +:+ String.concat EmptyString b2))).
Proof.
  apply (context_of_appended_matches sample_4f sample_str
           (take 2 five_chunks) (drop 2 five_chunks)).
  discriminate.
Defined.

Lemma limit_beyond_length_witness :
  build_context_string sample_4f sample_str five_chunks (Some 7)
  = build_context_string sample_4f sample_str five_chunks None.
Proof.
  apply (limit_beyond_length sample_4f sample_str five_chunks 7). cbn. lia.
Defined.

(** The context of the five matches with no limit. *)
Definition five_context : string :=
  Eval vm_compute in
    match build_context_string sample_4f sample_str five_chunks None with
    | Ok out => out
    | Raise _ => EmptyString
    end.

Lemma limited_output_is_a_prefix_witness :
  exists (bs : list string) (short rest : string),
    blocks sample_4f sample_str 0 five_chunks = Ok bs
    /\ length bs = 5%nat
    /\ five_context = String.concat EmptyString bs
    /\ blocks sample_4f sample_str 0 (take 2 five_chunks) = Ok (take 2 bs)
    /\ build_context_string sample_4f sample_str five_chunks (Some 2) = Ok short
    /\ short = String.concat EmptyString (take 2 bs)
    /\ rest = String.concat EmptyString (drop 2 bs)
    /\ five_context = short +:+ rest.
Proof.
  apply (limited_output_is_a_prefix sample_4f sample_str five_chunks 2 five_context).
  - discriminate.
  - vm_compute. reflexivity.
Defined.

(** A match whose score came back as text. *)
Definition text_score : Match := {| metadata := None; score := Some (VStr "0.9") |}.

Lemma string_score_raises_witness :
  build_context_string sample_4f sample_str (take 2 five_chunks ++ text_score :: []) None
  = Raise (ValueError "Unknown format code 'f' for object of type 'str'")
  /\ build_context_string sample_4f sample_str (take 2 five_chunks ++ text_score :: [])
       (Some 2)
     = build_context_string sample_4f sample_str (take 2 five_chunks) None
  /\ exists out, build_context_string sample_4f sample_str (take 2 five_chunks) None = Ok out.
Proof.
  apply (string_score_raises sample_4f sample_str (take 2 five_chunks) [] text_score "0.9").
  - discriminate.
  - repeat constructor; eexists; vm_compute; reflexivity.
  - reflexivity.
Defined.

End LlmGenerationMore.

(** ** api.py: what the handler reads and what it lets through *)
Module ApiMore.
Import Api.

(** X23: the handler reads three fields of the body, [query],
    [filters] and [mode], and nothing else: two bodies that agree on
    them get the same response.  A failure of the pipeline is raised
    unchanged; the handler catches nothing. *)
Theorem query_reads_three_fields (run : RAGPipeline -> json -> json -> result (json * json))
    (data data' : gmap string json) :
  data !! "query" = data' !! "query" ->
  data !! "filters" = data' !! "filters" ->
  data !! "mode" = data' !! "mode" ->
  query run data = query run data'
  /\ (forall e,
        run (select_pipeline (request_mode data))
          (default (JString EmptyString) (data !! "query"))
          (default (JObject []) (data !! "filters")) = Raise e ->
        query run data = Raise e).
Proof.
  intros Hq Hf Hm. split.
  - unfold query. now rewrite Hq, Hf, Hm.
  - intros e He. unfold query. fold (request_mode data). now rewrite He.
Qed.

Lemma query_reads_three_fields_witness :
  query naming_run {[ "query" := JString "noise limits"; "user" := JString "ada" ]}
  = query naming_run {[ "query" := JString "noise limits" ]}
  /\ (forall e,
        naming_run
          (select_pipeline
             (request_mode {[ "query" := JString "noise limits"; "user" := JString "ada" ]}))
          (default (JString EmptyString)
             (({[ "query" := JString "noise limits"; "user" := JString "ada" ]}
                : gmap string json) !! "query"))
          (default (JObject [])
             (({[ "query" := JString "noise limits"; "user" := JString "ada" ]}
                : gmap string json) !! "filters")) = Raise e ->
        query naming_run {[ "query" := JString "noise limits"; "user" := JString "ada" ]}
        = Raise e).
Proof.
  apply (query_reads_three_fields naming_run
           {[ "query" := JString "noise limits"; "user" := JString "ada" ]}
           {[ "query" := JString "noise limits" ]}); reflexivity.
Defined.

End ApiMore.

(** ** rag_ingest/s3_loader.py: the local glob on a directory tree *)
Module LocalGlob.
Import S3Loader.

(** A directory holds files and directories, in the order a listing
    gives them. *)
Inductive node : Type :=
| File (name : string)
| Dir (name : string) (children : list node).

Definition name_of (n : node) : string :=
  match n with File x => x | Dir x _ => x end.

(** A name that begins with a dot: [*] does not match it and [**] does
    not enter it. *)
Definition hidden (name : string) : bool := startswith name ".".

(** The directories [**] yields below a directory, each with its
    content, as paths relative to it. *)
Fixpoint rlistdir_node (n : node) : list (string * list node) :=
  match n with
  | File _ => []
  | Dir x kids =>
      if hidden x then []
      else (x, kids)
           :: map (fun yk => (path_join x yk.1, yk.2)) (List.flat_map rlistdir_node kids)
  end.

Definition rlistdir (children : list node) : list (string * list node) :=
  List.flat_map rlistdir_node children.

(** The entries of one directory that [*.parquet] matches. *)
Definition glob1 (dir : string) (children : list node) : list string :=
  map (fun n => path_join dir (name_of n))
    (List.filter (fun n => negb (hidden (name_of n)) && endswith (name_of n) ".parquet")
       children).

(** [os.path.split] leaves the trailing slashes of a directory out,
    unless it is made of slashes only. *)
Fixpoint rstrip_slashes (s : string) : string :=
  match s with
  | EmptyString => EmptyString
  | String c rest =>
      match rstrip_slashes rest with
      | EmptyString => if Ascii.eqb c "/" then EmptyString else String c EmptyString
      | r => String c r
      end
  end.

Definition split_head (base : string) : string :=
  match rstrip_slashes base with
  | EmptyString => base
  | head => head
  end.

(** [glob.glob(os.path.join(base, "**", "*.parquet"), recursive=True)]
    for a directory [base], written without [*], [?] and [[], that
    holds [children]. *)
Definition glob_parquet (base : string) (children : list node) : list string :=
  flat_map (fun dk => glob1 (path_join (split_head base) dk.1) dk.2)
    ((EmptyString, children) :: rlistdir children).

(** The glob of a file system that holds the one directory [base]. *)
Definition glob_at (base : string) (children : list node) (pattern : string)
    : list string :=
  if String.eqb pattern (path_join (path_join base "**") "*.parquet")
  then glob_parquet base children
  else [].

(** Every file of a tree, hidden or not, as a path from [dir]. *)
Fixpoint files_of (dir : string) (n : node) : list string :=
  match n with
  | File x => [path_join dir x]
  | Dir x kids => List.flat_map (files_of (path_join dir x)) kids
  end.

Definition files_below (dir : string) (children : list node) : list string :=
  List.flat_map (files_of dir) children.

(** A directory [./data] with a table, a hidden table, a hidden
    directory that holds a table, and a directory that holds a table
    and a text. *)
Definition data_dir : list node :=
  [ File "a.parquet";
    File ".c.parquet";
    Dir ".staging" [File "b.parquet"];
    Dir "sub" [File "d.parquet"; File "notes.txt"] ].

(** C7: under [./data] four files end in the extension; the glob
    returns two of them, and the loader reads those two only.  The
    table whose name begins with a dot and the table in the directory
    whose name begins with a dot are not enumerated, although the
    docstring has Mode B "concat all parquet files" and the remote
    branch keeps keys of the same shape. *)
Theorem hidden_tables_are_not_loaded :
  List.filter (fun p => endswith p ".parquet") (files_below "./data" data_dir)
  = ["./data/a.parquet"; "./data/.c.parquet"; "./data/.staging/b.parquet";
     "./data/sub/d.parquet"]
  /\ glob_at "./data" data_dir (local_pattern (fun p => p) "./data" None)
     = ["./data/a.parquet"; "./data/sub/d.parquet"]
  /\ load_parquet_from_s3 (fun p => p) (glob_at "./data" data_dir) demo_read
       (fun _ => demo_client) demo_stack 0%nat "./data" None None "us-east-1"
     = Some (Ok {| schema := [("chunk_text", "String")];
                   rows := [[VStr "./data/a.parquet"]; [VStr "./data/sub/d.parquet"]] |})
  /\ parquet_keys ["a.parquet"; ".c.parquet"; ".staging/b.parquet"; "sub/d.parquet"]
     = ["a.parquet"; ".c.parquet"; ".staging/b.parquet"; "sub/d.parquet"].
Proof. split_and!; reflexivity. Qed.

End LocalGlob.
